(** * populate_database.py: the shipment ETL pipeline

    A shallow embedding of [main] of [src/populate_database.py].  The script
    is a straight line of pandas calls on three data frames read from CSV
    files, with two [to_sql] appends.  Each pandas call the script uses is
    given a function on a small model of data frames, [main] is the
    composition the source writes, and the properties of the transform
    stage are proved about that composition.

    Modelling boundary.  A data frame is its list of column labels and its
    list of rows, one cell per column.  A cell is an integer, a string, a
    boolean or the missing value (NaN/None) that [read_csv] produces for an
    empty field.  Labels may repeat, as pandas allows after a renaming.
    Of the column dtypes only what [merge] checks on its key columns is
    modelled; floating point cells and the failures of the file system and
    of the storage are outside the model. *)

From Stdlib Require Import String Ascii ZArith Bool Arith Lia List.
From Stdlib Require Import Sorting.Sorted Sorting.Permutation.
Import ListNotations.
Local Open Scope string_scope.
Local Open Scope list_scope.

(** ** Cells, rows and data frames *)

Inductive value : Type :=
| VInt (z : Z)
| VStr (s : string)
| VBool (b : bool)
| VNaN.

Definition Row := list value.

Record DataFrame : Type := mkDF {
  columns : list string;
  rows : list Row
}.

(** Exceptions raised by the pandas calls of the script. *)
Inductive error : Type :=
| KeyError (labels : list string)
| ValueError (label : string)
| MergeError (labels : list string).

Inductive result (A : Type) : Type :=
| Ok (a : A)
| Err (e : error).
Arguments Ok {A} a.
Arguments Err {A} e.

Definition bind {A B : Type} (m : result A) (k : A -> result B) : result B :=
  match m with
  | Ok a => k a
  | Err e => Err e
  end.

Notation "x <- m ;; k" := (bind m (fun x => k))
  (at level 61, m at next level, right associativity).

Definition value_eqb (a b : value) : bool :=
  match a, b with
  | VInt x, VInt y => Z.eqb x y
  | VStr s, VStr t => String.eqb s t
  | VBool x, VBool y => Bool.eqb x y
  | VNaN, VNaN => true
  | _, _ => false
  end.

Definition notna (v : value) : bool :=
  match v with
  | VNaN => false
  | _ => true
  end.

(** ** Column labels *)

Definition has_column (c : string) (cols : list string) : bool :=
  existsb (String.eqb c) cols.

(** All positions that carry label [c], counted from [i]. *)
Fixpoint indices_from (i : nat) (c : string) (cols : list string) : list nat :=
  match cols with
  | [] => []
  | x :: xs =>
      if String.eqb x c then i :: indices_from (S i) c xs
      else indices_from (S i) c xs
  end.

Definition get_loc (c : string) (cols : list string) : list nat :=
  indices_from 0 c cols.

Definition cell_at (i : nat) (r : Row) : value := nth i r VNaN.

(** The cell of row [r] under label [c] (the first column so labelled). *)
Definition cell (df : DataFrame) (r : Row) (c : string) : value :=
  match get_loc c (columns df) with
  | i :: _ => cell_at i r
  | [] => VNaN
  end.

(** ** [DataFrame.rename(columns=mapping)]

    Labels found in the mapping are replaced, the others are kept, and a
    mapping key that names no column is ignored. *)

Fixpoint lookup_label (c : string) (m : list (string * string)) : option string :=
  match m with
  | [] => None
  | (k, v) :: m' => if String.eqb k c then Some v else lookup_label c m'
  end.

Definition rename_label (m : list (string * string)) (c : string) : string :=
  match lookup_label c m with
  | Some c' => c'
  | None => c
  end.

Definition rename (m : list (string * string)) (df : DataFrame) : DataFrame :=
  mkDF (map (rename_label m) (columns df)) (rows df).

(** ** [df[[l1, ..., ln]]]

    Selection by a list of labels.  Every label must name a column, else
    [KeyError] lists the missing ones; a label carried by several columns
    selects all of them. *)

Definition missing_labels (names cols : list string) : list string :=
  filter (fun n => negb (has_column n cols)) names.

Definition take (pos : list nat) (r : Row) : Row :=
  map (fun i => cell_at i r) pos.

Definition getitem (names : list string) (df : DataFrame) : result DataFrame :=
  match missing_labels names (columns df) with
  | [] =>
      let pos := flat_map (fun n => get_loc n (columns df)) names in
      Ok (mkDF (map (fun i => nth i (columns df) "") pos)
               (map (take pos) (rows df)))
  | miss => Err (KeyError miss)
  end.

(** ** [df[label] = scalar]

    An existing column is overwritten in place, a new label is appended as
    the last column. *)

Fixpoint overwrite (cols : list string) (c : string) (v : value) (r : Row) : Row :=
  match cols, r with
  | x :: xs, y :: ys =>
      (if String.eqb x c then v else y) :: overwrite xs c v ys
  | _, _ => r
  end.

Definition setitem (c : string) (v : value) (df : DataFrame) : DataFrame :=
  if has_column c (columns df)
  then mkDF (columns df) (map (overwrite (columns df) c v) (rows df))
  else mkDF (columns df ++ [c]) (map (fun r => r ++ [v]) (rows df)).

(** ** The target schema and the direct mapper (lines 41-49) *)

Definition shipment_columns : list string :=
  ["origin"; "destination"; "product_name"; "quantity"; "on_time";
   "driver_identifier"].

Definition sheet0_mapping : list (string * string) :=
  [("origin_warehouse", "origin");
   ("destination_store", "destination");
   ("product", "product_name");
   ("product_quantity", "quantity")].

Definition sheet0_mapped (sheet0 : DataFrame) : DataFrame :=
  rename sheet0_mapping sheet0.

Definition sheet0_clean (sheet0 : DataFrame) : result DataFrame :=
  getitem shipment_columns (sheet0_mapped sheet0).

(** ** [pd.merge(left, right, on=key)]

    The default inner join.  The key must label a column of both frames
    ([KeyError] otherwise); the key column of the right frame is dropped.
    When both frames have rows, a key column of numbers is not joined with
    a key column of text ([ValueError]).  Rows are paired when their key
    cells are equal (a missing key matches a missing key), in the order of
    the left rows and, for one left row, in the order of the right rows.
    Key cells are compared as cells of one kind: what pandas pairs across
    kinds, once it has turned a boolean key column and a numeric one into
    objects, is outside the model, and the properties that derive the
    joined rows from the sheets take identifier columns of one kind.
    The result has the left columns followed by the remaining right
    columns; a label that both sides carry gets the suffixes [_x] and
    [_y], and [MergeError] is raised when a suffixed label repeats a label
    of its own side. *)

Definition is_int (v : value) : bool :=
  match v with VInt _ => true | _ => false end.

Definition is_bool (v : value) : bool :=
  match v with VBool _ => true | _ => false end.

Definition numeric_cell (v : value) : bool :=
  match v with VInt _ | VNaN => true | _ => false end.

(** A column of dtype int64 or float64: numbers, some possibly missing. *)
Definition numeric_column (cells : list value) : bool :=
  forallb numeric_cell cells.

(** A column of dtype object that pandas infers as text: neither numbers
    nor all booleans, and without an integer cell. *)
Definition text_column (cells : list value) : bool :=
  negb (numeric_column cells) && negb (forallb is_bool cells) &&
  negb (existsb is_int cells).

(** The check of the key columns: skipped when a side has no row. *)
Definition keys_refused (lk rk : list value) : bool :=
  match lk, rk with
  | [], _ => false
  | _, [] => false
  | _ :: _, _ :: _ =>
      (text_column lk && numeric_column rk) ||
      (numeric_column lk && text_column rk)
  end.

Fixpoint remove_at {A : Type} (i : nat) (l : list A) : list A :=
  match i, l with
  | _, [] => []
  | O, _ :: xs => xs
  | S j, x :: xs => x :: remove_at j xs
  end.

Definition renamer (lcols rcols : list string) (sfx c : string) : string :=
  if has_column c lcols && has_column c rcols
  then String.append c sfx else c.

(** [Index.duplicated()]: one flag per label, set when the label occurred
    earlier in the list. *)
Fixpoint duplicated_from (seen l : list string) : list bool :=
  match l with
  | [] => []
  | x :: xs => has_column x seen :: duplicated_from (x :: seen) xs
  end.

Definition duplicated (l : list string) : list bool := duplicated_from [] l.

(** The labels that repeat after suffixing and did not repeat before. *)
Definition suffix_dups (orig renamed : list string) : list string :=
  map fst
    (filter (fun p => fst (snd p) && negb (snd (snd p)))
            (combine renamed (combine (duplicated renamed) (duplicated orig)))).

Definition merge_labels (lcols rcols : list string) : list string :=
  map (renamer lcols rcols "_x") lcols ++ map (renamer lcols rcols "_y") rcols.

Definition merge_dups (lcols rcols : list string) : list string :=
  suffix_dups lcols (map (renamer lcols rcols "_x") lcols) ++
  suffix_dups rcols (map (renamer lcols rcols "_y") rcols).

Definition matches (li ri : nat) (l : Row) (right_rows : list Row) : list Row :=
  filter (fun r => value_eqb (cell_at li l) (cell_at ri r)) right_rows.

Definition join_rows (li ri : nat) (left_rows right_rows : list Row) : list Row :=
  flat_map (fun l => map (fun r => l ++ remove_at ri r)
                         (matches li ri l right_rows))
           left_rows.

Definition merge (left right : DataFrame) (on : string) : result DataFrame :=
  match get_loc on (columns left), get_loc on (columns right) with
  | li :: _, ri :: _ =>
      if keys_refused (map (cell_at li) (rows left))
                      (map (cell_at ri) (rows right))
      then Err (ValueError on)
      else
        let rcols := remove_at ri (columns right) in
        match merge_dups (columns left) rcols with
        | [] => Ok (mkDF (merge_labels (columns left) rcols)
                         (join_rows li ri (rows left) (rows right)))
        | dups => Err (MergeError dups)
        end
  | _, _ => Err (KeyError [on])
  end.

(** ** [groupby(keys).agg({...})] and [reset_index()]

    With the defaults [sort=True] and [dropna=True]: rows with a missing
    key cell belong to no group, and the groups come out in ascending order
    of their key tuples.  ['sum'] adds the cells of the group, ['first']
    takes the first cell of the group that is not missing. *)

(** The order of the group keys.  Integers are ordered as numbers and
    strings character by character, by character code, as Python orders
    them; a column read by [read_csv] holds cells of one kind, and cells of
    different kinds are ordered by kind. *)
Definition rank (v : value) : nat :=
  match v with
  | VBool _ => 0
  | VInt _ => 1
  | VStr _ => 2
  | VNaN => 3
  end.

Definition value_compare (a b : value) : comparison :=
  match a, b with
  | VBool x, VBool y => Bool.compare x y
  | VInt x, VInt y => Z.compare x y
  | VStr s, VStr t => String.compare s t
  | _, _ => Nat.compare (rank a) (rank b)
  end.

Fixpoint key_compare (k1 k2 : list value) : comparison :=
  match k1, k2 with
  | [], [] => Eq
  | [], _ :: _ => Lt
  | _ :: _, [] => Gt
  | a :: k1', b :: k2' =>
      match value_compare a b with
      | Eq => key_compare k1' k2'
      | c => c
      end
  end.

Fixpoint key_eqb (k1 k2 : list value) : bool :=
  match k1, k2 with
  | [], [] => true
  | a :: k1', b :: k2' => value_eqb a b && key_eqb k1' k2'
  | _, _ => false
  end.

Fixpoint insert_key (k : list value) (ks : list (list value)) : list (list value) :=
  match ks with
  | [] => [k]
  | k' :: ks' =>
      match key_compare k k' with
      | Lt => k :: ks
      | Eq => ks
      | Gt => k' :: insert_key k ks'
      end
  end.

(** The distinct keys in ascending order. *)
Definition sort_keys (ks : list (list value)) : list (list value) :=
  fold_right insert_key [] ks.

(** A label given to [groupby] or to [agg] must name a column
    ([KeyError] otherwise), and one column only. *)
Definition unique_loc (c : string) (cols : list string) : result nat :=
  match get_loc c cols with
  | [] => Err (KeyError [c])
  | [i] => Ok i
  | _ => Err (ValueError c)
  end.

Fixpoint locate (names cols : list string) : result (list nat) :=
  match names with
  | [] => Ok []
  | n :: ns =>
      i <- unique_loc n cols ;;
      js <- locate ns cols ;;
      Ok (i :: js)
  end.

Inductive aggfunc : Type := AggSum | AggFirst.

(** The summand a cell contributes: the script sums a column it has
    just set to 1. *)
Definition as_int (v : value) : Z :=
  match v with
  | VInt z => z
  | VBool b => Z.b2z b
  | _ => 0%Z
  end.

Definition agg_sum (vs : list value) : value :=
  VInt (fold_right Z.add 0%Z (map as_int vs)).

Fixpoint agg_first (vs : list value) : value :=
  match vs with
  | [] => VNaN
  | VNaN :: vs' => agg_first vs'
  | v :: _ => v
  end.

Definition apply_agg (f : aggfunc) (vs : list value) : value :=
  match f with
  | AggSum => agg_sum vs
  | AggFirst => agg_first vs
  end.

(** The result of an aggregation: the key tuples form the index. *)
Record Grouped : Type := mkGrouped {
  index_names : list string;
  data_columns : list string;
  entries : list (list value * Row)
}.

Definition valid_rows (kpos : list nat) (rs : list Row) : list Row :=
  filter (fun r => forallb notna (take kpos r)) rs.

Definition group (kpos : list nat) (k : list value) (rs : list Row) : list Row :=
  filter (fun r => key_eqb (take kpos r) k) (valid_rows kpos rs).

Definition aggregate (apos : list (nat * aggfunc)) (g : list Row) : Row :=
  map (fun a => apply_agg (snd a) (map (cell_at (fst a)) g)) apos.

Definition groupby_agg (keys : list string) (aggs : list (string * aggfunc))
  (df : DataFrame) : result Grouped :=
  kpos <- locate keys (columns df) ;;
  apos <- locate (map fst aggs) (columns df) ;;
  Ok (mkGrouped keys (map fst aggs)
        (map (fun k => (k, aggregate (combine apos (map snd aggs))
                                     (group kpos k (rows df))))
             (sort_keys (map (take kpos) (valid_rows kpos (rows df)))))).

Definition reset_index (g : Grouped) : DataFrame :=
  mkDF (index_names g ++ data_columns g)
       (map (fun e => fst e ++ snd e) (entries g)).

(** ** The join-aggregate reconciler (lines 57-84) *)

Definition merged_mapping : list (string * string) :=
  [("origin_warehouse", "origin");
   ("destination_store", "destination");
   ("product", "product_name")].

Definition group_keys : list string := ["origin"; "destination"; "product_name"].

Definition summary_aggs : list (string * aggfunc) :=
  [("quantity", AggSum); ("on_time", AggFirst)].

(** Lines 57-71: the joined rows, renamed, each with [quantity = 1]. *)
Definition merged_mapped (sheet1 sheet2 : DataFrame) : result DataFrame :=
  merged <- merge sheet1 sheet2 "shipment_identifier" ;;
  Ok (setitem "quantity" (VInt 1) (rename merged_mapping merged)).

(** Lines 74-84. *)
Definition summarise (mm : DataFrame) : result DataFrame :=
  g <- groupby_agg group_keys summary_aggs mm ;;
  getitem shipment_columns
    (setitem "driver_identifier" (VStr "unknown") (reset_index g)).

Definition shipment_summary (sheet1 sheet2 : DataFrame) : result DataFrame :=
  mm <- merged_mapped sheet1 sheet2 ;;
  summarise mm.

(** ** [to_sql(name, conn, if_exists='append', index=False)] and [main]

    The database maps a table name to its rows; [journal] keeps the [to_sql]
    calls in the order they were issued.  Failures of the storage itself are
    outside the model.  An exception in [main] leaves the database as it was
    when it was raised. *)

Record Database : Type := mkDB {
  tables : string -> list Row;
  journal : list (string * list Row)
}.

Definition to_sql (name : string) (df : DataFrame) (db : Database) : Database :=
  mkDB (fun n => if String.eqb n name then tables db n ++ rows df
                 else tables db n)
       (journal db ++ [(name, rows df)]).

Definition main (sheet0 sheet1 sheet2 : DataFrame) (db : Database)
  : Database * result unit :=
  match sheet0_clean sheet0 with
  | Err e => (db, Err e)
  | Ok clean =>
      let db1 := to_sql "shipments" clean db in
      match shipment_summary sheet1 sheet2 with
      | Err e => (db1, Err e)
      | Ok summary => (to_sql "shipments" summary db1, Ok tt)
      end
  end.

Definition empty_db : Database := mkDB (fun _ => []) [].

(** ** Input conditions

    Boolean checks on the labels and shape of the input frames, so that
    they can be evaluated on a concrete frame. *)

Fixpoint distinct (l : list string) : bool :=
  match l with
  | [] => true
  | x :: xs => negb (has_column x xs) && distinct xs
  end.

Definition rectangular (df : DataFrame) : bool :=
  forallb (fun r : Row => Nat.eqb (length r) (length (columns df))) (rows df).

Definition has_all (names cols : list string) : bool :=
  forallb (fun n => has_column n cols) names.

Definition has_none (names cols : list string) : bool :=
  forallb (fun n => negb (has_column n cols)) names.

Definition source_fields : list string :=
  ["origin_warehouse"; "destination_store"; "product"; "product_quantity";
   "on_time"; "driver_identifier"].

Definition renamed_targets : list string :=
  ["origin"; "destination"; "product_name"; "quantity"].

(** RawRecordSet A: distinct labels, the six source fields among them, and
    no column that already carries one of the four new names. *)
Definition conforming_sheet0 (A : DataFrame) : bool :=
  distinct (columns A) && has_all source_fields (columns A) &&
  has_none renamed_targets (columns A).

(** What line 41-49 make of one input row. *)
Definition mapped_row (A : DataFrame) (r : Row) : Row :=
  map (cell A r) source_fields.

(** The pairs (source field, target column) the mapper needs. *)
Definition required_pairs : list (string * string) :=
  sheet0_mapping ++
  [("on_time", "on_time"); ("driver_identifier", "driver_identifier")].

(** ** The examples of the specification *)

Definition ex_sheet1 : DataFrame :=
  mkDF ["shipment_identifier"; "origin_warehouse"; "destination_store"; "product"]
       [[VInt 1; VStr "W1"; VStr "S1"; VStr "Widget"];
        [VInt 2; VStr "W1"; VStr "S1"; VStr "Widget"]].

Definition ex_sheet2 : DataFrame :=
  mkDF ["shipment_identifier"; "on_time"]
       [[VInt 1; VBool true]; [VInt 2; VBool true]].

Definition ex_sheet0 : DataFrame :=
  mkDF ["origin_warehouse"; "destination_store"; "product"; "product_quantity";
        "on_time"; "driver_identifier"]
       [[VStr "W2"; VStr "S2"; VStr "Gadget"; VInt 5; VBool false; VStr "D9"]].

(** ** Frames used to evaluate the mapper *)

(** A conforming sheet with one extra field. *)
Definition sheet0_with_notes : DataFrame :=
  mkDF ["origin_warehouse"; "notes"; "destination_store"; "product";
        "product_quantity"; "on_time"; "driver_identifier"]
       [[VStr "W2"; VStr "fragile"; VStr "S2"; VStr "Gadget"; VInt 5;
         VBool false; VStr "D9"];
        [VStr "W3"; VNaN; VStr "S1"; VStr "Widget"; VInt 2; VBool true;
         VStr "D4"]].

(** All six source fields, and an extra field already named [origin]. *)
Definition sheet0_extra_origin : DataFrame :=
  mkDF ["origin_warehouse"; "destination_store"; "product"; "product_quantity";
        "on_time"; "driver_identifier"; "origin"]
       [[VStr "W2"; VStr "S2"; VStr "Gadget"; VInt 5; VBool false; VStr "D9";
         VStr "Lyon"]].

(** No [origin_warehouse] field, but a column already named [origin]. *)
Definition sheet0_no_warehouse : DataFrame :=
  mkDF ["origin"; "destination_store"; "product"; "product_quantity";
        "on_time"; "driver_identifier"]
       [[VStr "W2"; VStr "S2"; VStr "Gadget"; VInt 5; VBool false; VStr "D9"]].

(** A conforming sheet whose only row has [product_quantity = 0]. *)
Definition sheet0_zero_quantity : DataFrame :=
  mkDF ["origin_warehouse"; "destination_store"; "product"; "product_quantity";
        "on_time"; "driver_identifier"]
       [[VStr "W2"; VStr "S2"; VStr "Gadget"; VInt 0; VBool false; VStr "D9"]].

(** ** Reading the summary

    The notions the properties of the reconciler are stated with: the key
    tuple of a row, the rows of a frame that share a key, and the strict
    order on key tuples. *)

Definition key_lt (k1 k2 : list value) : Prop := key_compare k1 k2 = Lt.

Definition agg_key (df : DataFrame) (r : Row) : list value :=
  map (cell df r) group_keys.

Definition complete_key (k : list value) : bool := forallb notna k.

(** The rows of [df] whose key tuple is [k], in the order of [df]. *)
Definition members (df : DataFrame) (k : list value) : list Row :=
  filter (fun r => key_eqb (agg_key df r) k) (rows df).

Definition summary_row (mm : DataFrame) (k : list value) : Row :=
  k ++ [agg_sum (map (fun r => cell mm r "quantity") (members mm k));
        agg_first (map (fun r => cell mm r "on_time") (members mm k));
        VStr "unknown"].

Definition summary_labels : list string :=
  group_keys ++ map fst summary_aggs.








(** Every row has one cell per column. *)
Definition Rect (df : DataFrame) : Prop :=
  forall r, In r (rows df) -> length r = length (columns df).

(** The labels the reconciler reads, each with the label it has before the
    renaming of line 64. *)
Definition merged_pairs : list (string * string) :=
  merged_mapping ++
  [("quantity", "quantity"); ("on_time", "on_time");
   ("shipment_identifier", "shipment_identifier")].

Definition value_lt (a b : value) : Prop := value_compare a b = Lt.

(** Row [a] comes before row [b] in the lexicographic order of
    (origin, destination, product_name). *)
Definition row_before (out : DataFrame) (a b : Row) : Prop :=
  value_lt (cell out a "origin") (cell out b "origin") \/
  (cell out a "origin" = cell out b "origin" /\
   (value_lt (cell out a "destination") (cell out b "destination") \/
    (cell out a "destination" = cell out b "destination" /\
     value_lt (cell out a "product_name") (cell out b "product_name")))).


Definition occurrences (df : DataFrame) (v : value) : nat :=
  length (filter (fun r => value_eqb (cell df r "shipment_identifier") v)
                 (rows df)).

(** The on_time cell of the first row of a group that has one. *)
Definition first_on_time (mm : DataFrame) (g : list Row) : value :=
  match find (fun r => notna (cell mm r "on_time")) g with
  | Some r => cell mm r "on_time"
  | None => VNaN
  end.

(** ** Frames used to evaluate the reconciler *)

(** Sheet 1 with a [quantity] field of its own, a repeated shipment
    identifier and a row without destination. *)
Definition sheet1_sample : DataFrame :=
  mkDF ["shipment_identifier"; "origin_warehouse"; "destination_store";
        "product"; "quantity"]
       [[VInt 1; VStr "W2"; VStr "S1"; VStr "Widget"; VInt 7];
        [VInt 2; VStr "W1"; VStr "S1"; VStr "Gadget"; VInt 3];
        [VInt 3; VStr "W2"; VStr "S1"; VStr "Widget"; VInt 9];
        [VInt 4; VStr "W1"; VNaN; VStr "Widget"; VInt 1];
        [VInt 1; VStr "W1"; VStr "S2"; VStr "Bolt"; VInt 1]].

Definition sheet2_sample : DataFrame :=
  mkDF ["shipment_identifier"; "on_time"]
       [[VInt 1; VBool true]; [VInt 2; VNaN]; [VInt 3; VBool false];
        [VInt 4; VBool true]; [VInt 1; VBool false]; [VInt 9; VBool true]].


(** Sheet 2 where the first shipment of the group has no on_time cell. *)
Definition sheet2_missing_first : DataFrame :=
  mkDF ["shipment_identifier"; "on_time"]
       [[VInt 1; VNaN]; [VInt 2; VBool true]].


(** The summary of the two sample sheets: the shipment without destination
    is in no group, identifier 1 pairs two rows with two rows. *)
Definition summary_sample : DataFrame :=
  mkDF shipment_columns
     [[VStr "W1"; VStr "S1"; VStr "Gadget"; VInt 1; VNaN; VStr "unknown"];
      [VStr "W1"; VStr "S2"; VStr "Bolt"; VInt 2; VBool true; VStr "unknown"];
      [VStr "W2"; VStr "S1"; VStr "Widget"; VInt 3; VBool true;
       VStr "unknown"]].

(** ** Frames used to evaluate the join *)

Definition left_notes : DataFrame :=
  mkDF ["shipment_identifier"; "notes"] [[VInt 1; VStr "a"]; [VNaN; VStr "b"]].

Definition right_notes : DataFrame :=
  mkDF ["notes"; "shipment_identifier"] [[VStr "c"; VNaN]; [VStr "d"; VInt 1]].

Definition left_notes_x : DataFrame :=
  mkDF ["shipment_identifier"; "notes"; "notes_x"]
       [[VInt 1; VStr "a"; VStr "e"]].

(** ** Proof steps *)

(** Case analysis on membership in a literal list of label pairs. *)
Ltac each_pair Hp tac :=
  simpl in Hp;
  repeat (destruct Hp as [Hp | Hp]; [injection Hp as <- <-; tac |]);
  try contradiction.

(** ** Further notions for the pipeline as a whole *)

(** Line 99: the total the script reports at the end of a run. *)
Definition total_records (sheet0 sheet1 sheet2 : DataFrame) : result nat :=
  clean <- sheet0_clean sheet0 ;;
  summary <- shipment_summary sheet1 sheet2 ;;
  Ok (length (rows clean) + length (rows summary)).

(** The sum of the quantity column of a frame. *)
Definition quantity_total (df : DataFrame) : Z :=
  fold_right Z.add 0%Z (map (fun o => as_int (cell df o "quantity")) (rows df)).

(** The joined rows that belong to a group. *)
Definition complete_rows (mm : DataFrame) : list Row :=
  filter (fun r => complete_key (agg_key mm r)) (rows mm).

(** The key and the quantity of a summary row. *)
Definition key_quantity (out : DataFrame) (o : Row) : list value :=
  agg_key out o ++ [cell out o "quantity"].



(** Sheet 1 with an on_time column of its own. *)
Definition sheet1_with_on_time : DataFrame :=
  mkDF ["shipment_identifier"; "origin_warehouse"; "destination_store";
        "product"; "on_time"]
       [[VInt 1; VStr "W1"; VStr "S1"; VStr "Widget"; VBool true]].

(** The sample sheets with their rows in another order. *)
Definition sheet1_shuffled : DataFrame :=
  mkDF (columns sheet1_sample)
       [[VInt 1; VStr "W1"; VStr "S2"; VStr "Bolt"; VInt 1];
        [VInt 3; VStr "W2"; VStr "S1"; VStr "Widget"; VInt 9];
        [VInt 1; VStr "W2"; VStr "S1"; VStr "Widget"; VInt 7];
        [VInt 4; VStr "W1"; VNaN; VStr "Widget"; VInt 1];
        [VInt 2; VStr "W1"; VStr "S1"; VStr "Gadget"; VInt 3]].

Definition sheet2_shuffled : DataFrame :=
  mkDF (columns sheet2_sample)
       [[VInt 9; VBool true]; [VInt 1; VBool false]; [VInt 4; VBool true];
        [VInt 3; VBool false]; [VInt 2; VNaN]; [VInt 1; VBool true]].


(** Whether two lists hold the same rows, each as often, in any order. *)
Fixpoint remove_row (r : Row) (l : list Row) : option (list Row) :=
  match l with
  | [] => None
  | x :: xs =>
      if key_eqb r x then Some xs
      else match remove_row r xs with
           | Some xs' => Some (x :: xs')
           | None => None
           end
  end.

Fixpoint same_rows (l l' : list Row) : bool :=
  match l with
  | [] => match l' with [] => true | _ :: _ => false end
  | r :: rs =>
      match remove_row r l' with
      | Some l'' => same_rows rs l''
      | None => false
      end
  end.

(** * Properties *)

Example reconciler_example :
  shipment_summary ex_sheet1 ex_sheet2 =
  Ok (mkDF shipment_columns
        [[VStr "W1"; VStr "S1"; VStr "Widget"; VInt 2; VBool true;
          VStr "unknown"]]).
Proof. reflexivity. Qed.

Example mapper_example :
  sheet0_clean ex_sheet0 =
  Ok (mkDF shipment_columns
        [[VStr "W2"; VStr "S2"; VStr "Gadget"; VInt 5; VBool false; VStr "D9"]]).
Proof. reflexivity. Qed.

(** A label shared besides the key is suffixed on both sides, and a
    missing key is paired with a missing key. *)
Example merge_suffixes :
  merge left_notes right_notes "shipment_identifier" =
  Ok (mkDF ["shipment_identifier"; "notes_x"; "notes_y"]
           [[VInt 1; VStr "a"; VStr "d"]; [VNaN; VStr "b"; VStr "c"]]).
Proof. reflexivity. Qed.

(** A suffixed label that repeats a label of its own side is refused. *)
Example merge_suffix_collision :
  merge left_notes_x right_notes "shipment_identifier" =
  Err (MergeError ["notes_x"]).
Proof. reflexivity. Qed.

(** A frame without the key column cannot be joined. *)
Example merge_without_key :
  merge ex_sheet0 ex_sheet2 "shipment_identifier" =
  Err (KeyError ["shipment_identifier"]).
Proof. reflexivity. Qed.

(** ** Facts on labels and positions *)

Lemma has_column_In (c : string) (cols : list string) :
  has_column c cols = true <-> In c cols.
Proof.
  unfold has_column. rewrite existsb_exists. split.
  - intros [x [Hin Heq]]. apply String.eqb_eq in Heq. now subst.
  - intros Hin. exists c. split; [assumption | apply String.eqb_refl].
Qed.

Lemma has_column_false (c : string) (cols : list string) :
  has_column c cols = false <-> ~ In c cols.
Proof.
  rewrite <- has_column_In. destruct (has_column c cols); split; intros H.
  - discriminate.
  - exfalso. now apply H.
  - discriminate.
  - reflexivity.
Qed.

Lemma distinct_NoDup (l : list string) : distinct l = true -> NoDup l.
Proof.
  induction l as [| x xs IH]; simpl; intros H.
  - constructor.
  - apply andb_true_iff in H as [Hx Hxs]. constructor.
    + apply negb_true_iff in Hx. now apply has_column_false.
    + now apply IH.
Qed.

Lemma has_all_In (names cols : list string) :
  has_all names cols = true -> forall n, In n names -> In n cols.
Proof.
  unfold has_all. rewrite forallb_forall. intros H n Hn.
  apply has_column_In. now apply H.
Qed.

Lemma has_none_In (names cols : list string) :
  has_none names cols = true -> forall n, In n names -> ~ In n cols.
Proof.
  unfold has_none. rewrite forallb_forall. intros H n Hn.
  apply has_column_false. apply negb_true_iff. now apply H.
Qed.

Lemma indices_from_absent (c : string) (cols : list string) :
  forall i, ~ In c cols -> indices_from i c cols = [].
Proof.
  induction cols as [| x xs IH]; simpl; intros i Hn.
  - reflexivity.
  - destruct (String.eqb_spec x c) as [-> | Hne].
    + exfalso. apply Hn. now left.
    + apply IH. intros Hin. apply Hn. now right.
Qed.

Lemma indices_from_present (c : string) (cols : list string) :
  forall i, In c cols -> indices_from i c cols <> [].
Proof.
  induction cols as [| x xs IH]; simpl; intros i Hin.
  - contradiction.
  - destruct (String.eqb_spec x c) as [-> | Hne].
    + discriminate.
    + destruct Hin as [Heq | Hin]; [contradiction | now apply IH].
Qed.

(** A label of a frame with distinct labels has exactly one position. *)
Lemma indices_from_unique (c : string) (cols : list string) :
  forall i, NoDup cols -> In c cols ->
  exists j, indices_from i c cols = [i + j] /\ j < length cols /\
            nth j cols "" = c.
Proof.
  induction cols as [| x xs IH]; simpl; intros i Hnd Hin.
  - contradiction.
  - inversion Hnd as [| ? ? Hx Hxs]; subst.
    destruct (String.eqb_spec x c) as [-> | Hne].
    + exists 0. rewrite (indices_from_absent c xs (S i) Hx). rewrite Nat.add_0_r.
      repeat split; lia.
    + destruct Hin as [Heq | Hin]; [contradiction |].
      destruct (IH (S i) Hxs Hin) as [j [Hj [Hlt Hnth]]].
      exists (S j). rewrite Hj. repeat split; [f_equal; lia | lia | exact Hnth].
Qed.

Lemma get_loc_unique (c : string) (cols : list string) :
  NoDup cols -> In c cols ->
  exists j, get_loc c cols = [j] /\ j < length cols /\ nth j cols "" = c.
Proof.
  intros Hnd Hin. destruct (indices_from_unique c cols 0 Hnd Hin) as [j H].
  exists j. exact H.
Qed.

(** Relabelling: the positions of [t] after [f] are those of [s] before,
    when [f] sends exactly the label [s] to [t]. *)
Lemma indices_from_map (f : string -> string) (s t : string) (cols : list string) :
  forall i,
  (forall x, In x cols -> String.eqb (f x) t = String.eqb x s) ->
  indices_from i t (map f cols) = indices_from i s cols.
Proof.
  induction cols as [| x xs IH]; simpl; intros i H.
  - reflexivity.
  - rewrite (H x (or_introl eq_refl)).
    rewrite IH by (intros y Hy; apply H; now right). reflexivity.
Qed.

Lemma cell_get_loc (df : DataFrame) (r : Row) (c : string) (i : nat)
  (rest : list nat) :
  get_loc c (columns df) = i :: rest -> cell df r c = cell_at i r.
Proof. unfold cell. now intros ->. Qed.

Lemma positions_after_rename (m : list (string * string))
  (cols : list string) (s t : string) :
  (forall x, rename_label m x = t <-> x = s \/ x = t) ->
  (s = t \/ ~ In t cols) ->
  get_loc t (map (rename_label m) cols) = get_loc s cols.
Proof.
  intros Hm Ht. unfold get_loc. apply indices_from_map. intros x Hx.
  destruct (String.eqb_spec (rename_label m x) t) as [He | He];
    destruct (String.eqb_spec x s) as [Hs | Hs]; try reflexivity.
  - apply Hm in He. destruct He as [-> | ->]; [contradiction |].
    destruct Ht as [-> | Ht]; contradiction.
  - exfalso. apply He. apply Hm. now left.
Qed.

(** ** The direct mapper *)

Lemma sheet0_rename_cases (x : string) :
  (x = "origin_warehouse" /\ rename_label sheet0_mapping x = "origin") \/
  (x = "destination_store" /\ rename_label sheet0_mapping x = "destination") \/
  (x = "product" /\ rename_label sheet0_mapping x = "product_name") \/
  (x = "product_quantity" /\ rename_label sheet0_mapping x = "quantity") \/
  (rename_label sheet0_mapping x = x /\
   ~ In x ["origin_warehouse"; "destination_store"; "product"; "product_quantity"]).
Proof.
  unfold rename_label, sheet0_mapping, lookup_label.
  destruct (String.eqb_spec "origin_warehouse" x) as [<- | H1]; [tauto |].
  destruct (String.eqb_spec "destination_store" x) as [<- | H2]; [tauto |].
  destruct (String.eqb_spec "product" x) as [<- | H3]; [tauto |].
  destruct (String.eqb_spec "product_quantity" x) as [<- | H4]; [tauto |].
  do 4 right. split; [reflexivity |]. simpl. intuition congruence.
Qed.

(** A column is labelled [t] after the renaming exactly when it was
    labelled [t] or carried the source field of [t]. *)
Lemma sheet0_renamed_label (x s t : string) :
  In (s, t) required_pairs ->
  rename_label sheet0_mapping x = t <-> x = s \/ x = t.
Proof.
  intros Hp.
  destruct (sheet0_rename_cases x) as
    [[-> ->] | [[-> ->] | [[-> ->] | [[-> ->] | [Hid Hne]]]]].
  1-4: each_pair Hp ltac:(split;
          [ intros H; try discriminate H; tauto
          | intros [H | H]; try discriminate H; reflexivity ]).
  rewrite Hid. simpl in Hne.
  each_pair Hp ltac:(split; [tauto | intros [H | H]; subst; tauto]).
Qed.

Lemma sheet0_has_target (cols : list string) (s t : string) :
  In (s, t) required_pairs ->
  In t (map (rename_label sheet0_mapping) cols) <-> In s cols \/ In t cols.
Proof.
  intros Hp. rewrite in_map_iff. split.
  - intros [x [Hx Hin]]. apply (sheet0_renamed_label x s t Hp) in Hx.
    destruct Hx as [-> | ->]; tauto.
  - intros [Hin | Hin].
    + exists s. split; [| exact Hin].
      apply (sheet0_renamed_label s s t Hp). now left.
    + exists t. split; [| exact Hin].
      apply (sheet0_renamed_label t s t Hp). now right.
Qed.

Lemma sheet0_positions (cols : list string) (s t : string) :
  In (s, t) required_pairs ->
  (s = t \/ ~ In t cols) ->
  get_loc t (map (rename_label sheet0_mapping) cols) = get_loc s cols.
Proof.
  intros Hp. apply positions_after_rename.
  intros x. now apply sheet0_renamed_label.
Qed.

Lemma missing_labels_nil (names cols : list string) :
  (forall n, In n names -> In n cols) -> missing_labels names cols = [].
Proof.
  unfold missing_labels. induction names as [| n ns IH]; simpl; intros H.
  - reflexivity.
  - assert (Hn : has_column n cols = true)
      by (apply has_column_In, H; now left).
    rewrite Hn. simpl. apply IH. intros m Hm. apply H. now right.
Qed.

(** The mapper on a conforming frame: six columns, one output row per
    input row, each cell taken from the source field of its column. *)
Lemma sheet0_clean_conforming (A : DataFrame) :
  conforming_sheet0 A = true ->
  sheet0_clean A = Ok (mkDF shipment_columns (map (mapped_row A) (rows A))).
Proof.
  unfold conforming_sheet0. intros H.
  apply andb_true_iff in H as [H Hnone]. apply andb_true_iff in H as [Hd Hall].
  apply distinct_NoDup in Hd.
  pose proof (has_all_In _ _ Hall) as Hin.
  pose proof (has_none_In _ _ Hnone) as Hout.
  assert (Hpos : forall s t, In (s, t) required_pairs ->
            exists j, get_loc t (columns (sheet0_mapped A)) = [j] /\
                      get_loc s (columns A) = [j] /\
                      nth j (columns (sheet0_mapped A)) "" = t).
  { intros s t Hp.
    assert (Hs : In s (columns A)).
    { apply Hin. simpl in Hp |- *.
      repeat (destruct Hp as [Hp | Hp]; [injection Hp as <- <-; tauto |]).
      contradiction. }
    assert (Ht : s = t \/ ~ In t (columns A)).
    { simpl in Hp.
      repeat (destruct Hp as [Hp | Hp];
              [injection Hp as <- <-;
               first [ left; reflexivity | right; apply Hout; simpl; tauto ] |]).
      contradiction. }
    destruct (get_loc_unique s (columns A) Hd Hs) as [j [Hj [Hlt Hnth]]].
    exists j. simpl. rewrite (sheet0_positions _ s t Hp Ht).
    repeat split; try assumption.
    change "" with (rename_label sheet0_mapping "") at 1.
    rewrite map_nth, Hnth. apply (sheet0_renamed_label s s t Hp). now left. }
  destruct (Hpos "origin_warehouse" "origin") as [j1 [T1 [S1 N1]]];
    [simpl; tauto |].
  destruct (Hpos "destination_store" "destination") as [j2 [T2 [S2 N2]]];
    [simpl; tauto |].
  destruct (Hpos "product" "product_name") as [j3 [T3 [S3 N3]]];
    [simpl; tauto |].
  destruct (Hpos "product_quantity" "quantity") as [j4 [T4 [S4 N4]]];
    [simpl; tauto |].
  destruct (Hpos "on_time" "on_time") as [j5 [T5 [S5 N5]]]; [simpl; tauto |].
  destruct (Hpos "driver_identifier" "driver_identifier") as [j6 [T6 [S6 N6]]];
    [simpl; tauto |].
  assert (Hmiss : missing_labels shipment_columns (columns (sheet0_mapped A)) = []).
  { apply missing_labels_nil. intros t Ht.
    assert (Hex : exists j, get_loc t (columns (sheet0_mapped A)) = [j]).
    { simpl in Ht.
      repeat (destruct Ht as [<- | Ht]; [eauto |]). contradiction. }
    destruct Hex as [j Hj].
    destruct (has_column t (columns (sheet0_mapped A))) eqn:E;
      [now apply has_column_In |].
    apply has_column_false in E.
    unfold get_loc in Hj. rewrite (indices_from_absent _ _ 0 E) in Hj.
    discriminate. }
  unfold sheet0_clean, getitem. rewrite Hmiss.
  unfold shipment_columns. cbn [flat_map].
  rewrite T1, T2, T3, T4, T5, T6. cbn [app map].
  rewrite N1, N2, N3, N4, N5, N6. f_equal. f_equal.
  apply map_ext. intros r. unfold take, mapped_row, source_fields.
  cbn [map].
  now rewrite (cell_get_loc A r _ _ _ S1), (cell_get_loc A r _ _ _ S2),
    (cell_get_loc A r _ _ _ S3), (cell_get_loc A r _ _ _ S4),
    (cell_get_loc A r _ _ _ S5), (cell_get_loc A r _ _ _ S6).
Qed.

(** X13.  For a sheet with distinct labels that has the six source fields
    and no column already named [origin], [destination], [product_name] or
    [quantity], the direct mapper returns a frame with the six target
    columns and as many rows as the input; output row [i] holds, under
    each target column, the cell of input row [i] under the matching
    source field, and nothing else. *)
Theorem mapper_row_preservation_C2 (A : DataFrame) :
  conforming_sheet0 A = true ->
  exists out,
    sheet0_clean A = Ok out /\
    columns out = shipment_columns /\
    length (rows out) = length (rows A) /\
    forall i, i < length (rows A) ->
      let r := nth i (rows A) [] in
      let o := nth i (rows out) [] in
      length o = 6 /\
      (forall s t, In (s, t) required_pairs -> cell out o t = cell A r s).
Proof.
  intros H. rewrite (sheet0_clean_conforming A H).
  eexists. split; [reflexivity |]. cbn [columns rows].
  split; [reflexivity |]. split; [apply length_map |].
  intros i Hi. cbv zeta.
  assert (Ho : nth i (map (mapped_row A) (rows A)) [] =
               mapped_row A (nth i (rows A) [])).
  { rewrite (nth_indep _ [] (mapped_row A []))
      by (rewrite length_map; exact Hi).
    apply map_nth. }
  rewrite Ho. split; [reflexivity |].
  intros s t Hp. simpl in Hp.
  repeat (destruct Hp as [Hp | Hp]; [injection Hp as <- <-; reflexivity |]).
  contradiction.
Qed.

Lemma mapper_row_preservation_C2_witness :
  exists out,
    sheet0_clean sheet0_with_notes = Ok out /\
    columns out = shipment_columns /\
    length (rows out) = length (rows sheet0_with_notes) /\
    forall i, i < length (rows sheet0_with_notes) ->
      let r := nth i (rows sheet0_with_notes) [] in
      let o := nth i (rows out) [] in
      length o = 6 /\
      (forall s t, In (s, t) required_pairs ->
                   cell out o t = cell sheet0_with_notes r s).
Proof. apply (mapper_row_preservation_C2 sheet0_with_notes). reflexivity. Defined.

(** C2, the code at the failing input.  With the six source fields
    present and an extra field named [origin], line 49 does not select
    only the columns the table needs: the extra field is not discarded,
    the output has seven columns, two of them labelled [origin], and its
    row still holds the extra cell. *)
Lemma mapper_keeps_extra_origin_C2 :
  has_all source_fields (columns sheet0_extra_origin) = true /\
  exists out,
    sheet0_clean sheet0_extra_origin = Ok out /\
    columns out = ["origin"; "origin"; "destination"; "product_name";
                   "quantity"; "on_time"; "driver_identifier"] /\
    rows out = [[VStr "W2"; VStr "Lyon"; VStr "S2"; VStr "Gadget"; VInt 5;
                 VBool false; VStr "D9"]] /\
    nth 0 (rows out) [] <>
    mapped_row sheet0_extra_origin (nth 0 (rows sheet0_extra_origin) []).
Proof.
  split; [reflexivity |]. eexists. split; [reflexivity |].
  split; [reflexivity |]. split; [reflexivity | discriminate].
Qed.

(** The target labels the selection of line 49 misses. *)
Lemma missing_targets (A : DataFrame) (t : string) :
  In t (missing_labels shipment_columns (columns (sheet0_mapped A))) <->
  exists s, In (s, t) required_pairs /\
            ~ In s (columns A) /\ ~ In t (columns A).
Proof.
  unfold missing_labels. rewrite filter_In, negb_true_iff, has_column_false.
  cbn [sheet0_mapped rename columns]. split.
  - intros [Ht Hno].
    assert (Hex : exists s, In (s, t) required_pairs).
    { simpl in Ht |- *.
      repeat (destruct Ht as [<- | Ht]; [eexists; tauto |]).
      contradiction. }
    destruct Hex as [s Hp]. exists s. split; [exact Hp |].
    rewrite (sheet0_has_target (columns A) s t Hp) in Hno. tauto.
  - intros [s [Hp [Hs Ht]]]. split.
    + simpl in Hp |- *.
      repeat (destruct Hp as [Hp | Hp]; [injection Hp as <- <-; tauto |]).
      contradiction.
    + rewrite (sheet0_has_target (columns A) s t Hp). tauto.
Qed.

(** C6 (as amended).  The direct mapper raises an error exactly when, for
    one of the six target columns, the sheet has neither the source field
    nor a column already carrying the target name; every error it raises
    is the [KeyError] that lists exactly those target columns. *)
Theorem mapper_failure_C6 (A : DataFrame) :
  ((exists e, sheet0_clean A = Err e) <->
   (exists s t, In (s, t) required_pairs /\
                ~ In s (columns A) /\ ~ In t (columns A))) /\
  (forall e, sheet0_clean A = Err e ->
     exists miss,
       e = KeyError miss /\ miss <> [] /\
       forall t, In t miss <->
                 exists s, In (s, t) required_pairs /\
                           ~ In s (columns A) /\ ~ In t (columns A)).
Proof.
  pose proof (missing_targets A) as Hmiss.
  unfold sheet0_clean, getitem.
  destruct (missing_labels shipment_columns (columns (sheet0_mapped A)))
    as [| m l].
  - split; [split |].
    + intros [e He]. discriminate He.
    + intros [s [t Hst]]. exfalso. apply (proj2 (Hmiss t)). eauto.
    + intros e He. discriminate He.
  - split; [split |].
    + intros _. destruct (proj1 (Hmiss m) (or_introl eq_refl)) as [s Hs].
      eauto.
    + intros _. eauto.
    + intros e He. injection He as <-. exists (m :: l).
      split; [reflexivity |]. split; [discriminate | exact Hmiss].
Qed.

Lemma mapper_failure_C6_witness :
  exists miss,
    KeyError ["quantity"; "on_time"; "driver_identifier"] = KeyError miss /\
    miss <> [] /\
    forall t, In t miss <->
              exists s, In (s, t) required_pairs /\
                        ~ In s (columns ex_sheet1) /\
                        ~ In t (columns ex_sheet1).
Proof.
  apply (proj2 (mapper_failure_C6 ex_sheet1)). reflexivity.
Defined.

(** C6 fails as first stated: a sheet without [origin_warehouse] is
    accepted when it has a column named [origin]. *)
Lemma mapper_accepts_missing_source_C6 :
  has_column "origin_warehouse" (columns sheet0_no_warehouse) = false /\
  sheet0_clean sheet0_no_warehouse =
  Ok (mkDF shipment_columns
        [[VStr "W2"; VStr "S2"; VStr "Gadget"; VInt 5; VBool false; VStr "D9"]]).
Proof. split; reflexivity. Qed.

(** ** The order on cells and on key tuples *)

Lemma ascii_compare_refl (a : ascii) : Ascii.compare a a = Eq.
Proof. unfold Ascii.compare. apply N.compare_refl. Qed.

Lemma ascii_compare_trans (a b c : ascii) :
  Ascii.compare a b = Lt -> Ascii.compare b c = Lt -> Ascii.compare a c = Lt.
Proof.
  unfold Ascii.compare. rewrite !N.compare_lt_iff. apply N.lt_trans.
Qed.

Lemma string_compare_refl (s : string) : String.compare s s = Eq.
Proof.
  induction s as [| a s IH]; simpl; [reflexivity |].
  now rewrite ascii_compare_refl.
Qed.

Lemma string_compare_trans (s1 : string) :
  forall s2 s3,
  String.compare s1 s2 = Lt -> String.compare s2 s3 = Lt ->
  String.compare s1 s3 = Lt.
Proof.
  induction s1 as [| a s1 IH]; intros [| b s2] [| c s3]; simpl;
    try discriminate; try reflexivity.
  destruct (Ascii.compare a b) eqn:Eab; try discriminate;
    destruct (Ascii.compare b c) eqn:Ebc; try discriminate; intros H1 H2.
  - apply Ascii.compare_eq_iff in Eab, Ebc. subst.
    rewrite ascii_compare_refl. now apply IH with s2.
  - apply Ascii.compare_eq_iff in Eab. subst. now rewrite Ebc.
  - apply Ascii.compare_eq_iff in Ebc. subst. now rewrite Eab.
  - now rewrite (ascii_compare_trans a b c Eab Ebc).
Qed.

Lemma value_compare_eq (a b : value) : value_compare a b = Eq -> a = b.
Proof.
  destruct a as [x | s | x |], b as [y | t | y |]; simpl;
    try discriminate; try reflexivity.
  - intros H. apply Z.compare_eq in H. now subst.
  - intros H. apply String.compare_eq_iff in H. now subst.
  - destruct x, y; simpl; try discriminate; reflexivity.
Qed.

Lemma value_compare_refl (a : value) : value_compare a a = Eq.
Proof.
  destruct a as [x | s | x |]; simpl.
  - apply Z.compare_refl.
  - apply string_compare_refl.
  - now destruct x.
  - reflexivity.
Qed.

Lemma value_compare_antisym (a b : value) :
  value_compare a b = CompOpp (value_compare b a).
Proof.
  destruct a as [x | s | x |], b as [y | t | y |]; simpl; try reflexivity.
  - apply Z.compare_antisym.
  - apply String.compare_antisym.
  - now destruct x, y.
Qed.

Lemma value_compare_trans (a b c : value) :
  value_compare a b = Lt -> value_compare b c = Lt -> value_compare a c = Lt.
Proof.
  destruct a as [x | s | x |], b as [y | t | y |], c as [z | u | z |]; simpl;
    try discriminate; try reflexivity.
  - rewrite !Z.compare_lt_iff. apply Z.lt_trans.
  - apply string_compare_trans.
  - destruct x, y, z; simpl; try discriminate; reflexivity.
Qed.

Lemma key_compare_eq (k1 : list value) :
  forall k2, key_compare k1 k2 = Eq -> k1 = k2.
Proof.
  induction k1 as [| a k1 IH]; intros [| b k2]; simpl; try discriminate;
    [reflexivity |].
  destruct (value_compare a b) eqn:E; try discriminate.
  intros H. apply value_compare_eq in E. apply IH in H. now subst.
Qed.

Lemma key_compare_refl (k : list value) : key_compare k k = Eq.
Proof.
  induction k as [| a k IH]; simpl; [reflexivity |].
  now rewrite value_compare_refl.
Qed.

Lemma key_compare_antisym (k1 : list value) :
  forall k2, key_compare k1 k2 = CompOpp (key_compare k2 k1).
Proof.
  induction k1 as [| a k1 IH]; intros [| b k2]; simpl; try reflexivity.
  rewrite (value_compare_antisym a b).
  destruct (value_compare b a); simpl; try reflexivity. apply IH.
Qed.

Lemma key_compare_trans (k1 : list value) :
  forall k2 k3,
  key_compare k1 k2 = Lt -> key_compare k2 k3 = Lt -> key_compare k1 k3 = Lt.
Proof.
  induction k1 as [| a k1 IH]; intros [| b k2] [| c k3]; simpl;
    try discriminate; try reflexivity.
  destruct (value_compare a b) eqn:Eab; try discriminate;
    destruct (value_compare b c) eqn:Ebc; try discriminate; intros H1 H2.
  - apply value_compare_eq in Eab, Ebc. subst.
    rewrite value_compare_refl. now apply IH with k2.
  - apply value_compare_eq in Eab. subst. now rewrite Ebc.
  - apply value_compare_eq in Ebc. subst. now rewrite Eab.
  - now rewrite (value_compare_trans a b c Eab Ebc).
Qed.

Lemma value_eqb_eq (a b : value) : value_eqb a b = true <-> a = b.
Proof.
  destruct a as [x | s | x |], b as [y | t | y |]; simpl;
    try (split; [discriminate | congruence]).
  - rewrite Z.eqb_eq. split; congruence.
  - rewrite String.eqb_eq. split; congruence.
  - rewrite Bool.eqb_true_iff. split; congruence.
  - tauto.
Qed.

Lemma key_eqb_eq (k1 : list value) :
  forall k2, key_eqb k1 k2 = true <-> k1 = k2.
Proof.
  induction k1 as [| a k1 IH]; intros [| b k2]; simpl;
    try (split; [discriminate | congruence]); [tauto |].
  rewrite andb_true_iff, value_eqb_eq, IH. split.
  - intros [-> ->]. reflexivity.
  - intros H. injection H as -> ->. tauto.
Qed.

(** ** Sorting the distinct keys *)

Lemma insert_key_In (k x : list value) (ks : list (list value)) :
  In x (insert_key k ks) <-> x = k \/ In x ks.
Proof.
  induction ks as [| k' ks IH]; simpl.
  - intuition.
  - destruct (key_compare k k') eqn:E; simpl.
    + apply key_compare_eq in E. subst. intuition.
    + intuition.
    + rewrite IH. intuition.
Qed.

Lemma sort_keys_In (x : list value) (ks : list (list value)) :
  In x (sort_keys ks) <-> In x ks.
Proof.
  unfold sort_keys. induction ks as [| k ks IH]; simpl.
  - tauto.
  - rewrite insert_key_In, IH. intuition.
Qed.

Lemma insert_key_sorted (k : list value) (ks : list (list value)) :
  StronglySorted key_lt ks -> StronglySorted key_lt (insert_key k ks).
Proof.
  induction ks as [| k' ks IH]; simpl; intros Hs.
  - repeat constructor.
  - inversion Hs as [| ? ? Hs' Hall]; subst.
    destruct (key_compare k k') eqn:E.
    + exact Hs.
    + constructor; [exact Hs |]. constructor; [exact E |].
      rewrite Forall_forall in Hall |- *. intros y Hy.
      apply (key_compare_trans k k' y E). now apply Hall.
    + constructor; [now apply IH |].
      rewrite Forall_forall in Hall |- *. intros y Hy.
      apply insert_key_In in Hy. destruct Hy as [-> | Hy].
      * unfold key_lt. rewrite key_compare_antisym, E. reflexivity.
      * now apply Hall.
Qed.

Lemma sort_keys_sorted (ks : list (list value)) :
  StronglySorted key_lt (sort_keys ks).
Proof.
  unfold sort_keys. induction ks as [| k ks IH]; simpl.
  - constructor.
  - now apply insert_key_sorted.
Qed.

Lemma key_lt_irrefl (k : list value) : ~ key_lt k k.
Proof. unfold key_lt. rewrite key_compare_refl. discriminate. Qed.

Lemma sorted_NoDup (ks : list (list value)) :
  StronglySorted key_lt ks -> NoDup ks.
Proof.
  induction 1 as [| k ks Hs IH Hall]; constructor; [| exact IH].
  intros Hin. rewrite Forall_forall in Hall.
  exact (key_lt_irrefl k (Hall k Hin)).
Qed.

(** ** Grouping and aggregation *)

Lemma unique_loc_Ok (c : string) (cols : list string) (i : nat) :
  unique_loc c cols = Ok i <-> get_loc c cols = [i].
Proof.
  unfold unique_loc. destruct (get_loc c cols) as [| j [| j' l]]; split;
    intros H; try discriminate H; congruence.
Qed.

Lemma locate_Ok (names cols : list string) :
  forall l, locate names cols = Ok l <->
            Forall2 (fun n i => get_loc n cols = [i]) names l.
Proof.
  induction names as [| n ns IH]; simpl; intros l.
  - split; intros H.
    + injection H as <-. constructor.
    + inversion H. reflexivity.
  - unfold bind. destruct (unique_loc n cols) as [i | e] eqn:Ei.
    + apply unique_loc_Ok in Ei.
      destruct (locate ns cols) as [js | e] eqn:Ej; split; intros H.
      * injection H as <-. constructor; [exact Ei |]. now apply IH.
      * inversion H as [| ? i' ? js' Hi Hjs]; subst.
        apply IH in Hjs. congruence.
      * discriminate H.
      * inversion H as [| ? i' ? js' Hi Hjs]; subst.
        apply IH in Hjs. discriminate Hjs.
    + split; intros H; [discriminate H |].
      inversion H as [| ? i' ? js' Hi Hjs]; subst.
      apply unique_loc_Ok in Hi. congruence.
Qed.

Lemma filter_filter_implied {A : Type} (p q : A -> bool) (l : list A) :
  (forall x, In x l -> p x = true -> q x = true) ->
  filter p (filter q l) = filter p l.
Proof.
  induction l as [| x l IH]; simpl; intros H; [reflexivity |].
  destruct (q x) eqn:Eq; simpl.
  - destruct (p x); rewrite IH; auto.
  - destruct (p x) eqn:Ep.
    + rewrite (H x (or_introl eq_refl) Ep) in Eq. discriminate.
    + apply IH. auto.
Qed.

(** When the five labels each name one column, the summary has one row
    per complete key of the grouped frame, in ascending key order. *)
Lemma summarise_located (mm : DataFrame) :
  (forall c, In c summary_labels -> exists i, get_loc c (columns mm) = [i]) ->
  summarise mm =
  Ok (mkDF shipment_columns
        (map (summary_row mm)
             (sort_keys (map (agg_key mm)
                (filter (fun r => complete_key (agg_key mm r)) (rows mm)))))).
Proof.
  intros H.
  destruct (H "origin") as [i1 L1]; [simpl; tauto |].
  destruct (H "destination") as [i2 L2]; [simpl; tauto |].
  destruct (H "product_name") as [i3 L3]; [simpl; tauto |].
  destruct (H "quantity") as [iq Lq]; [simpl; tauto |].
  destruct (H "on_time") as [io Lo]; [simpl; tauto |].
  assert (Hk : locate group_keys (columns mm) = Ok [i1; i2; i3])
    by (apply locate_Ok; repeat constructor; assumption).
  assert (Ha : locate (map fst summary_aggs) (columns mm) = Ok [iq; io])
    by (apply locate_Ok; repeat constructor; assumption).
  assert (Hkey : forall r, take [i1; i2; i3] r = agg_key mm r).
  { intros r. unfold take, agg_key, group_keys. cbn [map].
    now rewrite (cell_get_loc mm r _ _ _ L1), (cell_get_loc mm r _ _ _ L2),
      (cell_get_loc mm r _ _ _ L3). }
  unfold summarise, groupby_agg. rewrite Hk, Ha. cbn [bind].
  unfold reset_index, setitem. cbn [index_names data_columns entries columns rows].
  change (has_column "driver_identifier" (group_keys ++ map fst summary_aggs))
    with false. cbv iota.
  unfold getitem. cbn [columns rows].
  change (missing_labels shipment_columns
            ((group_keys ++ map fst summary_aggs) ++ ["driver_identifier"]))
    with (@nil string). cbv iota.
  change (flat_map (fun n => get_loc n
            ((group_keys ++ map fst summary_aggs) ++ ["driver_identifier"]))
            shipment_columns) with [0; 1; 2; 3; 4; 5].
  f_equal. f_equal.
  rewrite !map_map. unfold valid_rows.
  rewrite (filter_ext (fun r => forallb notna (take [i1; i2; i3] r))
             (fun r => complete_key (agg_key mm r)))
    by (intros r; now rewrite Hkey).
  rewrite (map_ext (take [i1; i2; i3]) (agg_key mm) Hkey).
  apply map_ext_in. intros k Hin. cbn [fst snd].
  apply sort_keys_In, in_map_iff in Hin. destruct Hin as [r0 [Hr0 Hin0]].
  apply filter_In in Hin0 as [_ Hc0].
  assert (Hg : group [i1; i2; i3] k (rows mm) = members mm k).
  { unfold group, members, valid_rows.
    rewrite (filter_ext (fun r => key_eqb (take [i1; i2; i3] r) k)
               (fun r => key_eqb (agg_key mm r) k))
      by (intros r; now rewrite Hkey).
    apply filter_filter_implied. intros r _ Hr.
    apply key_eqb_eq in Hr. rewrite Hkey, Hr, <- Hr0. exact Hc0. }
  rewrite Hg. unfold summary_row, aggregate, summary_aggs.
  cbn [combine map snd fst apply_agg].
  rewrite (map_ext (cell_at iq) (fun r => cell mm r "quantity"))
    by (intros r; symmetry; apply (cell_get_loc mm r _ _ _ Lq)).
  rewrite (map_ext (cell_at io) (fun r => cell mm r "on_time"))
    by (intros r; symmetry; apply (cell_get_loc mm r _ _ _ Lo)).
  subst k. unfold agg_key, group_keys. reflexivity.
Qed.

(** A summary is produced only when the five labels each name one column. *)
Lemma summarise_Ok_located (mm out : DataFrame) :
  summarise mm = Ok out ->
  forall c, In c summary_labels -> exists i, get_loc c (columns mm) = [i].
Proof.
  unfold summarise, groupby_agg, bind. intros H.
  destruct (locate group_keys (columns mm)) as [kpos | e] eqn:Hk;
    [| discriminate H].
  destruct (locate (map fst summary_aggs) (columns mm)) as [apos | e] eqn:Ha;
    [| discriminate H].
  apply locate_Ok in Hk, Ha.
  intros c Hc. unfold summary_labels in Hc. apply in_app_or in Hc.
  destruct Hc as [Hc | Hc].
  - clear Ha H. induction Hk as [| n i ns js Hn Hrest IH];
      [contradiction | destruct Hc as [<- | Hc]; eauto].
  - clear Hk H. induction Ha as [| n i ns js Hn Hrest IH];
      [contradiction | destruct Hc as [<- | Hc]; eauto].
Qed.

Lemma summarise_Ok (mm out : DataFrame) :
  summarise mm = Ok out ->
  out = mkDF shipment_columns
          (map (summary_row mm)
               (sort_keys (map (agg_key mm)
                  (filter (fun r => complete_key (agg_key mm r)) (rows mm))))).
Proof.
  intros H. pose proof (summarise_Ok_located mm out H) as Hl.
  rewrite (summarise_located mm Hl) in H. congruence.
Qed.

(** ** Shape of the frames along the pipeline *)

Lemma rectangular_Rect (df : DataFrame) : rectangular df = true -> Rect df.
Proof.
  unfold rectangular, Rect. rewrite forallb_forall. intros H r Hr.
  apply Nat.eqb_eq. now apply H.
Qed.

Lemma indices_from_head (c : string) (cols : list string) :
  forall k i rest, indices_from k c cols = i :: rest ->
  exists j, i = k + j /\ j < length cols /\ nth j cols "" = c /\
            forall j', j' < j -> nth j' cols "" <> c.
Proof.
  induction cols as [| x xs IH]; simpl; intros k i rest H.
  - discriminate H.
  - destruct (String.eqb_spec x c) as [-> | Hne].
    + injection H as <- _. exists 0. repeat split; try lia.
    + apply IH in H. destruct H as [j [Hi [Hlt [Hnth Hmin]]]].
      exists (S j). repeat split; try lia; try assumption.
      intros [| j'] Hj'; [exact Hne | apply Hmin; lia].
Qed.

Lemma get_loc_head (c : string) (cols : list string) (i : nat)
  (rest : list nat) :
  get_loc c cols = i :: rest -> i < length cols /\ nth i cols "" = c.
Proof.
  intros H. apply indices_from_head in H.
  destruct H as [j [-> [Hlt [Hnth _]]]]. now split.
Qed.

Lemma get_loc_present (c : string) (cols : list string) :
  In c cols -> exists i rest, get_loc c cols = i :: rest.
Proof.
  intros Hin. pose proof (indices_from_present c cols 0 Hin) as H.
  unfold get_loc. destruct (indices_from 0 c cols) as [| i rest];
    [contradiction | eauto].
Qed.

Lemma indices_from_app (c : string) (l1 l2 : list string) :
  forall k, indices_from k c (l1 ++ l2) =
            indices_from k c l1 ++ indices_from (k + length l1) c l2.
Proof.
  induction l1 as [| x xs IH]; simpl; intros k.
  - now rewrite Nat.add_0_r.
  - rewrite IH. replace (S k + length xs) with (k + S (length xs)) by lia.
    now destruct (String.eqb x c).
Qed.

Lemma remove_at_length {A : Type} (l : list A) :
  forall i, i < length l -> S (length (remove_at i l)) = length l.
Proof.
  induction l as [| x xs IH]; simpl; intros i Hi; [lia |].
  destruct i as [| i]; simpl; [reflexivity |].
  rewrite IH by lia. reflexivity.
Qed.




(** The frame produced by a successful [merge]. *)
Lemma merge_Ok (left right : DataFrame) (on : string) (m : DataFrame) :
  merge left right on = Ok m ->
  exists li lrest ri rrest,
    get_loc on (columns left) = li :: lrest /\
    get_loc on (columns right) = ri :: rrest /\
    m = mkDF (merge_labels (columns left) (remove_at ri (columns right)))
             (join_rows li ri (rows left) (rows right)).
Proof.
  unfold merge.
  destruct (get_loc on (columns left)) as [| li lrest]; [discriminate |].
  destruct (get_loc on (columns right)) as [| ri rrest]; [discriminate |].
  destruct (keys_refused _ _); [discriminate |].
  destruct (merge_dups (columns left) (remove_at ri (columns right)));
    [| discriminate].
  intros H. injection H as <-. exists li, lrest, ri, rrest. tauto.
Qed.

Lemma merge_labels_length (lcols rcols : list string) :
  length (merge_labels lcols rcols) = length lcols + length rcols.
Proof. unfold merge_labels. now rewrite length_app, !length_map. Qed.

Lemma join_rows_In (li ri : nat) (ls rs : list Row) (x : Row) :
  In x (join_rows li ri ls rs) <->
  exists l r, In l ls /\ In r rs /\
              cell_at li l = cell_at ri r /\ x = l ++ remove_at ri r.
Proof.
  unfold join_rows, matches. rewrite in_flat_map. split.
  - intros [l [Hl Hx]]. apply in_map_iff in Hx as [r [<- Hr]].
    apply filter_In in Hr as [Hr He]. apply value_eqb_eq in He.
    exists l, r. tauto.
  - intros [l [r [Hl [Hr [He ->]]]]]. exists l. split; [exact Hl |].
    apply in_map_iff. exists r. split; [reflexivity |].
    apply filter_In. split; [exact Hr | now apply value_eqb_eq].
Qed.

Lemma merge_Rect (left right : DataFrame) (on : string) (m : DataFrame) :
  Rect left -> Rect right -> merge left right on = Ok m -> Rect m.
Proof.
  intros Hl Hr H. apply merge_Ok in H.
  destruct H as [li [lrest [ri [rrest [Gl [Gr ->]]]]]].
  apply get_loc_head in Gr as [Hri _].
  intros x Hx. cbn [rows columns] in *.
  apply join_rows_In in Hx. destruct Hx as [l [r [Inl [Inr [_ ->]]]]].
  rewrite merge_labels_length, length_app.
  rewrite (Hl l Inl). f_equal.
  pose proof (remove_at_length r ri) as H1.
  pose proof (remove_at_length (columns right) ri Hri) as H2.
  rewrite (Hr r Inr) in H1. specialize (H1 Hri). lia.
Qed.

Lemma rename_Rect (m : list (string * string)) (df : DataFrame) :
  Rect df -> Rect (rename m df).
Proof.
  unfold Rect, rename. cbn [rows columns]. intros H r Hr.
  rewrite length_map. now apply H.
Qed.

Lemma overwrite_length (cols : list string) (c : string) (v : value) :
  forall r, length (overwrite cols c v r) = length r.
Proof.
  induction cols as [| x xs IH]; intros [| y ys]; simpl; try reflexivity.
  now rewrite IH.
Qed.

Lemma overwrite_at (cols : list string) (c : string) (v : value) :
  forall r i, length r = length cols -> i < length cols ->
  nth i cols "" = c -> cell_at i (overwrite cols c v r) = v.
Proof.
  unfold cell_at.
  induction cols as [| x xs IH]; intros [| y ys] [| i]; simpl;
    intros Hlen Hi Hnth; try lia.
  - subst x. now rewrite String.eqb_refl.
  - apply IH; [lia | lia | exact Hnth].
Qed.

Lemma setitem_Rect (c : string) (v : value) (df : DataFrame) :
  Rect df -> Rect (setitem c v df).
Proof.
  unfold Rect, setitem. intros H r.
  destruct (has_column c (columns df)); cbn [rows columns]; intros Hr;
    apply in_map_iff in Hr as [r0 [<- Hr0]].
  - rewrite overwrite_length. now apply H.
  - rewrite !length_app. simpl. now rewrite (H r0 Hr0).
Qed.

(** After [df[c] = v] every row holds [v] under [c]. *)
Lemma setitem_cell (c : string) (v : value) (df : DataFrame) (r : Row) :
  Rect df -> In r (rows (setitem c v df)) -> cell (setitem c v df) r c = v.
Proof.
  unfold setitem. intros H.
  destruct (has_column c (columns df)) eqn:E; cbn [rows]; intros Hr;
    apply in_map_iff in Hr as [r0 [<- Hr0]].
  - apply has_column_In, get_loc_present in E. destruct E as [i [rest Hi]].
    unfold cell. cbn [columns]. rewrite Hi.
    apply get_loc_head in Hi as [Hlt Hnth].
    apply overwrite_at; [now apply H | exact Hlt | exact Hnth].
  - apply has_column_false in E. unfold cell, get_loc. cbn [columns].
    rewrite indices_from_app, (indices_from_absent c _ 0 E). simpl.
    rewrite String.eqb_refl. unfold cell_at.
    rewrite app_nth2 by (rewrite (H r0 Hr0); lia).
    rewrite (H r0 Hr0), Nat.sub_diag. reflexivity.
Qed.

Lemma merged_mapped_Ok (B C mm : DataFrame) :
  merged_mapped B C = Ok mm ->
  exists merged,
    merge B C "shipment_identifier" = Ok merged /\
    mm = setitem "quantity" (VInt 1) (rename merged_mapping merged).
Proof.
  unfold merged_mapped, bind.
  destruct (merge B C "shipment_identifier") as [merged | e];
    [| discriminate].
  intros H. injection H as <-. eauto.
Qed.

(** Line 71: every joined row carries the unit quantity. *)
Lemma merged_mapped_unit (B C mm : DataFrame) :
  Rect B -> Rect C -> merged_mapped B C = Ok mm ->
  forall r, In r (rows mm) -> cell mm r "quantity" = VInt 1.
Proof.
  intros HB HC H r Hr. apply merged_mapped_Ok in H.
  destruct H as [merged [Hm ->]].
  apply setitem_cell; [| exact Hr].
  apply rename_Rect. now apply (merge_Rect B C "shipment_identifier").
Qed.

(** ** Labels of the joined frame *)

Lemma merged_rename_cases (x : string) :
  (x = "origin_warehouse" /\ rename_label merged_mapping x = "origin") \/
  (x = "destination_store" /\ rename_label merged_mapping x = "destination") \/
  (x = "product" /\ rename_label merged_mapping x = "product_name") \/
  (rename_label merged_mapping x = x /\
   ~ In x ["origin_warehouse"; "destination_store"; "product"]).
Proof.
  unfold rename_label, merged_mapping, lookup_label.
  destruct (String.eqb_spec "origin_warehouse" x) as [<- | H1]; [tauto |].
  destruct (String.eqb_spec "destination_store" x) as [<- | H2]; [tauto |].
  destruct (String.eqb_spec "product" x) as [<- | H3]; [tauto |].
  do 3 right. split; [reflexivity |]. simpl. intuition congruence.
Qed.

Lemma merged_renamed_label (x s t : string) :
  In (s, t) merged_pairs ->
  rename_label merged_mapping x = t <-> x = s \/ x = t.
Proof.
  intros Hp.
  destruct (merged_rename_cases x) as
    [[-> ->] | [[-> ->] | [[-> ->] | [Hid Hne]]]].
  1-3: each_pair Hp ltac:(split;
          [ intros H; try discriminate H; tauto
          | intros [H | H]; try discriminate H; reflexivity ]).
  rewrite Hid. simpl in Hne.
  each_pair Hp ltac:(split; [tauto | intros [H | H]; subst; tauto]).
Qed.







(** What a successful run of the reconciler returns. *)
Lemma shipment_summary_Ok (B C out : DataFrame) :
  shipment_summary B C = Ok out ->
  exists mm,
    merged_mapped B C = Ok mm /\
    out = mkDF shipment_columns
            (map (summary_row mm)
                 (sort_keys (map (agg_key mm)
                    (filter (fun r => complete_key (agg_key mm r)) (rows mm))))).
Proof.
  unfold shipment_summary, bind.
  destruct (merged_mapped B C) as [mm | e]; [| discriminate].
  intros H. exists mm. split; [reflexivity | now apply summarise_Ok].
Qed.

(** ** Rows of the summary *)

Lemma summary_rows_In (mm : DataFrame) (o : Row) :
  In o (map (summary_row mm)
          (sort_keys (map (agg_key mm)
             (filter (fun r => complete_key (agg_key mm r)) (rows mm))))) <->
  exists r, In r (rows mm) /\ complete_key (agg_key mm r) = true /\
            o = summary_row mm (agg_key mm r).
Proof.
  rewrite in_map_iff. split.
  - intros [k [<- Hk]]. apply sort_keys_In, in_map_iff in Hk.
    destruct Hk as [r [<- Hr]]. apply filter_In in Hr. exists r. tauto.
  - intros [r [Hr [Hc ->]]]. exists (agg_key mm r). split; [reflexivity |].
    apply sort_keys_In, in_map_iff. exists r. split; [reflexivity |].
    now apply filter_In.
Qed.

(** The cells of a summary row, read through the output labels. *)
Lemma summary_row_key (mm : DataFrame) (r : Row) (rs : list Row) :
  agg_key (mkDF shipment_columns rs) (summary_row mm (agg_key mm r)) =
  agg_key mm r.
Proof. reflexivity. Qed.

Lemma summary_row_quantity (mm : DataFrame) (r : Row) (rs : list Row) :
  cell (mkDF shipment_columns rs) (summary_row mm (agg_key mm r)) "quantity" =
  agg_sum (map (fun x => cell mm x "quantity") (members mm (agg_key mm r))).
Proof. reflexivity. Qed.

Lemma summary_row_on_time (mm : DataFrame) (r : Row) (rs : list Row) :
  cell (mkDF shipment_columns rs) (summary_row mm (agg_key mm r)) "on_time" =
  agg_first (map (fun x => cell mm x "on_time") (members mm (agg_key mm r))).
Proof. reflexivity. Qed.

Lemma summary_row_driver (mm : DataFrame) (r : Row) (rs : list Row) :
  cell (mkDF shipment_columns rs) (summary_row mm (agg_key mm r))
       "driver_identifier" = VStr "unknown".
Proof. reflexivity. Qed.

Lemma agg_sum_units (vs : list value) :
  (forall v, In v vs -> v = VInt 1) ->
  agg_sum vs = VInt (Z.of_nat (length vs)).
Proof.
  unfold agg_sum. induction vs as [| v vs IH]; intros H.
  - reflexivity.
  - assert (Hv : v = VInt 1) by (apply H; now left). subst v.
    assert (IH' : VInt (fold_right Z.add 0%Z (map as_int vs)) =
                  VInt (Z.of_nat (length vs)))
      by (apply IH; intros v Hv; apply H; now right).
    injection IH' as IH'. cbn [map fold_right as_int length].
    rewrite IH'. f_equal. lia.
Qed.

Lemma agg_first_find {A : Type} (f : A -> value) (l : list A) :
  agg_first (map f l) =
  match find (fun x => notna (f x)) l with
  | Some x => f x
  | None => VNaN
  end.
Proof.
  induction l as [| x l IH]; simpl; [reflexivity |].
  destruct (f x) eqn:E; simpl; try (symmetry; exact E). exact IH.
Qed.

Lemma members_In (mm : DataFrame) (k : list value) (r : Row) :
  In r (members mm k) <-> In r (rows mm) /\ agg_key mm r = k.
Proof.
  unfold members. rewrite filter_In, key_eqb_eq. tauto.
Qed.

(** The quantity of a summary row is the size of its group. *)
Lemma summary_quantity (mm : DataFrame) (k : list value) :
  (forall r, In r (rows mm) -> cell mm r "quantity" = VInt 1) ->
  agg_sum (map (fun x => cell mm x "quantity") (members mm k)) =
  VInt (Z.of_nat (length (members mm k))).
Proof.
  intros H. rewrite agg_sum_units; [now rewrite length_map |].
  intros v Hv. apply in_map_iff in Hv as [r [<- Hr]].
  apply members_In in Hr. now apply H.
Qed.

Lemma StronglySorted_map {A B : Type} (R : A -> A -> Prop)
  (R' : B -> B -> Prop) (f : A -> B) (l : list A) :
  (forall x y, In x l -> In y l -> R x y -> R' (f x) (f y)) ->
  StronglySorted R l -> StronglySorted R' (map f l).
Proof.
  intros H Hs. induction Hs as [| x l Hs IH Hall]; simpl; constructor.
  - apply IH. intros a b Ha Hb. apply H; now right.
  - rewrite Forall_forall in Hall |- *. intros y Hy.
    apply in_map_iff in Hy as [z [<- Hz]].
    apply H; [now left | now right | now apply Hall].
Qed.

(** ** Properties of the reconciler *)

(** C7.  Whenever the reconciler returns a frame, that frame has the six
    target columns and every row of it holds the string ["unknown"] under
    [driver_identifier]. *)
Theorem sentinel_C7 (B C out : DataFrame) :
  shipment_summary B C = Ok out ->
  columns out = shipment_columns /\
  forall o, In o (rows out) -> cell out o "driver_identifier" = VStr "unknown".
Proof.
  intros H. apply shipment_summary_Ok in H. destruct H as [mm [_ ->]].
  split; [reflexivity |]. cbn [rows]. intros o Ho.
  apply summary_rows_In in Ho. destruct Ho as [r [_ [_ ->]]].
  apply summary_row_driver.
Qed.

Lemma sentinel_C7_witness :
  columns summary_sample = shipment_columns /\
  forall o, In o (rows summary_sample) ->
            cell summary_sample o "driver_identifier" = VStr "unknown".
Proof.
  apply (sentinel_C7 sheet1_sample sheet2_sample). reflexivity.
Defined.

(** C1 (as amended).  Every joined row carries quantity 1 whatever the
    sheets held; the quantity of each summary row is the number of joined
    rows that share its key; every joined row whose key has no missing
    component has its summary row, and no two summary rows share a key. *)
Theorem aggregation_count_C1 (B C out : DataFrame) :
  rectangular B = true -> rectangular C = true ->
  shipment_summary B C = Ok out ->
  exists mm,
    merged_mapped B C = Ok mm /\
    (forall r, In r (rows mm) -> cell mm r "quantity" = VInt 1) /\
    (forall o, In o (rows out) ->
       cell out o "quantity" =
       VInt (Z.of_nat (length (members mm (agg_key out o))))) /\
    (forall r, In r (rows mm) -> complete_key (agg_key mm r) = true ->
       exists o, In o (rows out) /\ agg_key out o = agg_key mm r) /\
    NoDup (map (agg_key out) (rows out)).
Proof.
  intros HB HC H. apply rectangular_Rect in HB, HC.
  apply shipment_summary_Ok in H. destruct H as [mm [Hmm ->]].
  pose proof (merged_mapped_unit B C mm HB HC Hmm) as Hunit.
  exists mm. split; [exact Hmm |]. split; [exact Hunit |].
  cbn [rows]. split; [| split].
  - intros o Ho. apply summary_rows_In in Ho. destruct Ho as [r [_ [_ ->]]].
    rewrite summary_row_quantity, summary_row_key.
    now apply summary_quantity.
  - intros r Hr Hc. exists (summary_row mm (agg_key mm r)). split.
    + apply summary_rows_In. exists r. tauto.
    + apply summary_row_key.
  - rewrite map_map.
    set (ks := sort_keys _).
    assert (Hks : forall k, In k ks -> exists r, k = agg_key mm r).
    { intros k Hk. apply sort_keys_In, in_map_iff in Hk.
      destruct Hk as [r [<- _]]. eauto. }
    rewrite (map_ext_in _ (fun k => k)).
    + rewrite map_id. apply sorted_NoDup, sort_keys_sorted.
    + intros k Hk. destruct (Hks k Hk) as [r ->].
      apply summary_row_key.
Qed.

Lemma aggregation_count_C1_witness :
  exists mm,
    merged_mapped sheet1_sample sheet2_sample = Ok mm /\
    (forall r, In r (rows mm) -> cell mm r "quantity" = VInt 1) /\
    (forall o, In o (rows summary_sample) ->
       cell summary_sample o "quantity" =
       VInt (Z.of_nat (length (members mm (agg_key summary_sample o))))) /\
    (forall r, In r (rows mm) -> complete_key (agg_key mm r) = true ->
       exists o, In o (rows summary_sample) /\
                 agg_key summary_sample o = agg_key mm r) /\
    NoDup (map (agg_key summary_sample) (rows summary_sample)).
Proof.
  apply (aggregation_count_C1 sheet1_sample sheet2_sample); reflexivity.
Defined.

(** C1 fails as first stated: the key (W1, missing, Widget) is the key of
    a joined row of the sample sheets, and no summary row carries it. *)
Lemma missing_key_has_no_row_C1 :
  exists mm out r,
    merged_mapped sheet1_sample sheet2_sample = Ok mm /\
    shipment_summary sheet1_sample sheet2_sample = Ok out /\
    In r (rows mm) /\
    agg_key mm r = [VStr "W1"; VNaN; VStr "Widget"] /\
    forall o, In o (rows out) -> agg_key out o <> agg_key mm r.
Proof.
  do 3 eexists. split; [reflexivity |]. split; [reflexivity |].
  split; [do 4 right; left; reflexivity |]. split; [reflexivity |].
  intros o [<- | [<- | [<- | []]]]; discriminate.
Qed.

(** C3 (as amended).  Every row the reconciler returns has a positive
    integer quantity.  The direct mapper copies [product_quantity]: on a
    conforming sheet the quantities of its rows are the input cells, row
    by row, whatever they are. *)
Theorem quantity_C3 :
  (forall B C out,
     rectangular B = true -> rectangular C = true ->
     shipment_summary B C = Ok out ->
     forall o, In o (rows out) ->
     exists q, cell out o "quantity" = VInt q /\ (0 < q)%Z) /\
  (forall A,
     conforming_sheet0 A = true ->
     exists out,
       sheet0_clean A = Ok out /\
       map (fun o => cell out o "quantity") (rows out) =
       map (fun r => cell A r "product_quantity") (rows A)).
Proof.
  split.
  - intros B C out HB HC H o Ho. apply rectangular_Rect in HB, HC.
    apply shipment_summary_Ok in H. destruct H as [mm [Hmm ->]].
    pose proof (merged_mapped_unit B C mm HB HC Hmm) as Hunit.
    cbn [rows] in Ho. apply summary_rows_In in Ho.
    destruct Ho as [r [Hr [_ ->]]].
    rewrite summary_row_quantity, (summary_quantity mm _ Hunit). eexists. split; [reflexivity |].
    assert (Hin : In r (members mm (agg_key mm r)))
      by (apply members_In; tauto).
    destruct (members mm (agg_key mm r)); [contradiction | simpl; lia].
  - intros A HA. rewrite (sheet0_clean_conforming A HA).
    eexists. split; [reflexivity |]. cbn [rows]. rewrite map_map.
    apply map_ext. reflexivity.
Qed.

Lemma quantity_C3_witness :
  (forall o, In o (rows summary_sample) ->
     exists q, cell summary_sample o "quantity" = VInt q /\ (0 < q)%Z) /\
  (exists out,
     sheet0_clean sheet0_zero_quantity = Ok out /\
     map (fun o => cell out o "quantity") (rows out) =
     map (fun r => cell sheet0_zero_quantity r "product_quantity")
         (rows sheet0_zero_quantity)).
Proof.
  split.
  - apply (proj1 quantity_C3 sheet1_sample sheet2_sample); reflexivity.
  - apply (proj2 quantity_C3 sheet0_zero_quantity). reflexivity.
Defined.

(** C3 fails as first stated: the mapper returns a row of quantity 0 for a
    sheet whose [product_quantity] is 0. *)
Lemma mapper_zero_quantity_C3 :
  exists out o,
    sheet0_clean sheet0_zero_quantity = Ok out /\ In o (rows out) /\
    cell out o "quantity" = VInt 0 /\
    ~ (exists q, cell out o "quantity" = VInt q /\ (0 < q)%Z).
Proof.
  eexists. eexists. split; [reflexivity |]. split; [now left |].
  split; [reflexivity |]. intros [q [Hq Hpos]].
  injection Hq as <-. lia.
Qed.

Lemma key_compare_three (a1 a2 a3 b1 b2 b3 : value) :
  key_compare [a1; a2; a3] [b1; b2; b3] = Lt <->
  value_lt a1 b1 \/
  (a1 = b1 /\ (value_lt a2 b2 \/ (a2 = b2 /\ value_lt a3 b3))).
Proof.
  unfold value_lt. cbn [key_compare].
  destruct (value_compare a1 b1) eqn:E1.
  - apply value_compare_eq in E1. subst b1.
    destruct (value_compare a2 b2) eqn:E2.
    + apply value_compare_eq in E2. subst b2.
      destruct (value_compare a3 b3) eqn:E3; split; intros H;
        try discriminate H; try tauto;
        destruct H as [H | [_ [H | [_ H]]]]; discriminate H.
    + split; [tauto | reflexivity].
    + split; [discriminate |].
      intros [H | [_ [H | [H _]]]]; try discriminate H.
      subst b2. rewrite value_compare_refl in E2. discriminate E2.
  - split; [tauto | reflexivity].
  - split; [discriminate |].
    intros [H | [H _]]; [discriminate H |].
    subst b1. rewrite value_compare_refl in E1. discriminate E1.
Qed.

Lemma key_lt_row_before (out : DataFrame) (a b : Row) :
  key_lt (agg_key out a) (agg_key out b) <-> row_before out a b.
Proof. apply key_compare_three. Qed.

(** C9.  The rows the reconciler returns are in strictly ascending
    lexicographic order of (origin, destination, product_name): each row
    comes before every later row, whatever the order of the input rows. *)
Theorem ascending_keys_C9 (B C out : DataFrame) :
  shipment_summary B C = Ok out ->
  StronglySorted (row_before out) (rows out).
Proof.
  intros H. apply shipment_summary_Ok in H. destruct H as [mm [_ ->]].
  cbn [rows]. set (ks := sort_keys _). set (out := mkDF _ _).
  apply (StronglySorted_map key_lt); [| apply sort_keys_sorted].
  intros x y Hx Hy Hlt.
  assert (Hks : forall k, In k ks -> agg_key out (summary_row mm k) = k).
  { intros k Hk. apply sort_keys_In, in_map_iff in Hk.
    destruct Hk as [r [<- _]]. apply summary_row_key. }
  apply key_lt_row_before. now rewrite (Hks x Hx), (Hks y Hy).
Qed.

Lemma ascending_keys_C9_witness :
  StronglySorted (row_before summary_sample) (rows summary_sample).
Proof.
  apply (ascending_keys_C9 sheet1_sample sheet2_sample). reflexivity.
Defined.

(** C4 (as amended).  The on_time value of a summary row is the on_time
    cell of the first joined row of its group, in the order of the joined
    rows, whose on_time cell is not missing, and it is missing when the
    whole group has none; so it is the cell of the first row of the group
    whenever that cell is present. *)
Theorem first_on_time_C4 (B C out : DataFrame) :
  shipment_summary B C = Ok out ->
  exists mm,
    merged_mapped B C = Ok mm /\
    forall o, In o (rows out) ->
      cell out o "on_time" = first_on_time mm (members mm (agg_key out o)) /\
      (forall r0 rest,
         members mm (agg_key out o) = r0 :: rest ->
         notna (cell mm r0 "on_time") = true ->
         cell out o "on_time" = cell mm r0 "on_time").
Proof.
  intros H. apply shipment_summary_Ok in H. destruct H as [mm [Hmm ->]].
  exists mm. split; [exact Hmm |]. cbn [rows]. intros o Ho.
  apply summary_rows_In in Ho. destruct Ho as [r [_ [_ ->]]].
  rewrite summary_row_on_time, summary_row_key, agg_first_find. split; [reflexivity |].
  intros r0 rest Hg Hr0. rewrite Hg. simpl. now rewrite Hr0.
Qed.

Lemma first_on_time_C4_witness :
  exists mm,
    merged_mapped sheet1_sample sheet2_sample = Ok mm /\
    forall o, In o (rows summary_sample) ->
      cell summary_sample o "on_time" =
        first_on_time mm (members mm (agg_key summary_sample o)) /\
      (forall r0 rest,
         members mm (agg_key summary_sample o) = r0 :: rest ->
         notna (cell mm r0 "on_time") = true ->
         cell summary_sample o "on_time" = cell mm r0 "on_time").
Proof.
  apply (first_on_time_C4 sheet1_sample sheet2_sample). reflexivity.
Defined.

(** C4 fails as first stated: when the first joined row of a group has no
    on_time cell and a later one has, the summary takes the later one. *)
Lemma first_row_missing_C4 :
  exists mm out o r0 rest,
    merged_mapped ex_sheet1 sheet2_missing_first = Ok mm /\
    shipment_summary ex_sheet1 sheet2_missing_first = Ok out /\
    In o (rows out) /\
    members mm (agg_key out o) = r0 :: rest /\
    cell mm r0 "on_time" = VNaN /\
    cell out o "on_time" = VBool true /\
    cell out o "on_time" <> cell mm r0 "on_time".
Proof.
  do 5 eexists. split; [reflexivity |]. split; [reflexivity |].
  split; [now left |]. split; [reflexivity |].
  split; [reflexivity |]. split; [reflexivity | discriminate].
Qed.

(** ** The join *)












(** Identifier 1 occurs twice in each sample sheet and four times in the
    join. *)
Example many_to_many_sample :
  occurrences sheet1_sample (VInt 1) = 2 /\
  occurrences sheet2_sample (VInt 1) = 2 /\
  exists merged,
    merge sheet1_sample sheet2_sample "shipment_identifier" = Ok merged /\
    occurrences merged (VInt 1) = 4.
Proof. repeat split. eexists. split; reflexivity. Qed.

(** ** The two appends *)

(** C8.  On a run of [main] that raises nothing, both components
    succeeded, exactly two [to_sql] calls were issued, the mapper's rows
    first and the reconciler's rows second, and the [shipments] table
    holds what it held before followed by the mapper's rows followed by
    the reconciler's rows; starting from an empty table it holds exactly
    the mapper's rows followed by the reconciler's rows. *)
Theorem append_order_C8 (A B C : DataFrame) (db db' : Database) :
  main A B C db = (db', Ok tt) ->
  exists m r,
    sheet0_clean A = Ok m /\
    shipment_summary B C = Ok r /\
    journal db' = journal db ++ [("shipments", rows m); ("shipments", rows r)] /\
    tables db' "shipments" = tables db "shipments" ++ rows m ++ rows r /\
    (tables db "shipments" = [] ->
     tables db' "shipments" = rows m ++ rows r).
Proof.
  unfold main.
  destruct (sheet0_clean A) as [m | e]; [| discriminate].
  destruct (shipment_summary B C) as [r | e]; [| discriminate].
  intros H. injection H as <-. exists m, r.
  split; [reflexivity |]. split; [reflexivity |].
  unfold to_sql. cbn [journal tables]. rewrite String.eqb_refl.
  split; [now rewrite <- app_assoc |].
  split; [now rewrite <- app_assoc |].
  intros ->. now rewrite <- app_assoc.
Qed.

Lemma append_order_C8_witness :
  exists m r,
    sheet0_clean ex_sheet0 = Ok m /\
    shipment_summary sheet1_sample sheet2_sample = Ok r /\
    journal (fst (main ex_sheet0 sheet1_sample sheet2_sample empty_db)) =
      journal empty_db ++ [("shipments", rows m); ("shipments", rows r)] /\
    tables (fst (main ex_sheet0 sheet1_sample sheet2_sample empty_db))
           "shipments" =
      tables empty_db "shipments" ++ rows m ++ rows r /\
    (tables empty_db "shipments" = [] ->
     tables (fst (main ex_sheet0 sheet1_sample sheet2_sample empty_db))
            "shipments" = rows m ++ rows r).
Proof.
  apply (append_order_C8 ex_sheet0 sheet1_sample sheet2_sample empty_db).
  reflexivity.
Defined.

(** * Further properties of the pipeline *)

(** ** The direct mapper on any sheet *)

Lemma indices_from_In (c : string) (cols : list string) :
  forall k j, In j (indices_from k c cols) ->
  k <= j /\ j - k < length cols /\ nth (j - k) cols "" = c.
Proof.
  induction cols as [| x xs IH]; simpl; intros k j Hj; [contradiction |].
  destruct (String.eqb_spec x c) as [-> | Hne].
  - destruct Hj as [<- | Hj].
    + rewrite Nat.sub_diag. repeat split; lia.
    + apply IH in Hj. destruct Hj as [Hle [Hlt Hnth]].
      replace (j - k) with (S (j - S k)) by lia. repeat split; try lia.
      exact Hnth.
  - apply IH in Hj. destruct Hj as [Hle [Hlt Hnth]].
    replace (j - k) with (S (j - S k)) by lia. repeat split; try lia.
    exact Hnth.
Qed.

Lemma get_loc_In (c : string) (cols : list string) (j : nat) :
  In j (get_loc c cols) -> nth j cols "" = c.
Proof.
  intros Hj. apply indices_from_In in Hj. rewrite Nat.sub_0_r in Hj. tauto.
Qed.

Lemma getitem_Ok (names : list string) (df out : DataFrame) :
  getitem names df = Ok out ->
  missing_labels names (columns df) = [] /\
  out = mkDF (map (fun i => nth i (columns df) "")
                  (flat_map (fun n => get_loc n (columns df)) names))
             (map (take (flat_map (fun n => get_loc n (columns df)) names))
                  (rows df)).
Proof.
  unfold getitem. destruct (missing_labels names (columns df));
    [| discriminate].
  intros H. injection H as <-. tauto.
Qed.

(** X1.  Whenever the direct mapper returns a frame, whatever the sheet
    held, the frame has as many rows as the sheet, one cell per column in
    every row, and its labels are the six target names: each of them
    occurs and no other label does. *)
Theorem mapper_shape_X1 (A out : DataFrame) :
  sheet0_clean A = Ok out ->
  length (rows out) = length (rows A) /\
  Rect out /\
  (forall c, In c (columns out) <-> In c shipment_columns).
Proof.
  unfold sheet0_clean. intros H. apply getitem_Ok in H.
  destruct H as [Hmiss ->].
  unfold sheet0_mapped, rename in *. cbn [rows columns] in *.
  set (cols := map (rename_label sheet0_mapping) (columns A)) in *.
  split; [apply length_map |]. split.
  - intros r Hr. cbn [rows columns] in *.
    apply in_map_iff in Hr as [r0 [<- _]]. unfold take.
    now rewrite !length_map.
  - intros c. rewrite in_map_iff. split.
    + intros [i [Hi Hin]]. apply in_flat_map in Hin as [n [Hn Hloc]].
      apply get_loc_In in Hloc. congruence.
    + intros Hc.
      assert (Hhas : has_column c cols = true).
      { destruct (has_column c cols) eqn:E; [reflexivity |].
        assert (Hin : In c (missing_labels shipment_columns cols))
          by (apply filter_In; now rewrite E).
        rewrite Hmiss in Hin. contradiction. }
      apply has_column_In, get_loc_present in Hhas.
      destruct Hhas as [i [rest Hi]]. exists i. split.
      * now apply (get_loc_head c cols i rest).
      * apply in_flat_map. exists c. split; [exact Hc |].
        rewrite Hi. now left.
Qed.

Lemma mapper_shape_X1_witness :
  exists out,
    sheet0_clean sheet0_extra_origin = Ok out /\
    length (rows out) = length (rows sheet0_extra_origin) /\
    Rect out /\
    (forall c, In c (columns out) <-> In c shipment_columns).
Proof.
  eexists. split; [reflexivity |].
  apply (mapper_shape_X1 sheet0_extra_origin). reflexivity.
Defined.

(** X2.  A frame that already has exactly the six target columns, in
    schema order, passes through the direct mapper unchanged: the renaming
    finds nothing to rename and the selection keeps every column. *)
Theorem mapper_keeps_target_schema_X2 (df : DataFrame) :
  columns df = shipment_columns -> rectangular df = true ->
  sheet0_clean df = Ok df.
Proof.
  destruct df as [cols rs]. cbn [columns]. intros -> Hrect.
  apply rectangular_Rect in Hrect. unfold Rect in Hrect.
  cbn [rows columns] in Hrect.
  unfold sheet0_clean, sheet0_mapped, rename, getitem. cbn [columns rows].
  change (map (rename_label sheet0_mapping) shipment_columns)
    with shipment_columns.
  change (missing_labels shipment_columns shipment_columns) with (@nil string).
  cbv iota.
  change (flat_map (fun n => get_loc n shipment_columns) shipment_columns)
    with [0; 1; 2; 3; 4; 5].
  f_equal. f_equal. rewrite <- (map_id rs) at 2.
  apply map_ext_in. intros r Hr. specialize (Hrect r Hr).
  do 6 (destruct r as [| ? r]; [discriminate Hrect |]).
  destruct r; [reflexivity | discriminate Hrect].
Qed.

Lemma mapper_keeps_target_schema_X2_witness :
  sheet0_clean summary_sample = Ok summary_sample.
Proof.
  apply (mapper_keeps_target_schema_X2 summary_sample); reflexivity.
Defined.

(** ** Errors of the reconciler *)

Lemma get_loc_nil (c : string) (cols : list string) :
  get_loc c cols = [] <-> has_column c cols = false.
Proof.
  split; intros H.
  - destruct (has_column c cols) eqn:E; [| reflexivity].
    apply has_column_In, get_loc_present in E.
    destruct E as [i [rest Hi]]. congruence.
  - apply has_column_false in H. now apply indices_from_absent.
Qed.

Lemma merge_Err (left right : DataFrame) (on : string) (e : error) :
  merge left right on = Err e ->
  (e = KeyError [on] /\
   (has_column on (columns left) = false \/
    has_column on (columns right) = false)) \/
  (has_column on (columns left) = true /\
   has_column on (columns right) = true /\
   (e = ValueError on \/ exists dups, dups <> [] /\ e = MergeError dups)).
Proof.
  unfold merge.
  destruct (get_loc on (columns left)) as [| li lrest] eqn:Gl.
  - intros H. injection H as <-. left. split; [reflexivity |].
    left. now apply get_loc_nil.
  - destruct (get_loc on (columns right)) as [| ri rrest] eqn:Gr.
    + intros H. injection H as <-. left. split; [reflexivity |].
      right. now apply get_loc_nil.
    + assert (Hl : has_column on (columns left) = true).
      { destruct (has_column on (columns left)) eqn:E; [reflexivity |].
        apply get_loc_nil in E. congruence. }
      assert (Hr : has_column on (columns right) = true).
      { destruct (has_column on (columns right)) eqn:E; [reflexivity |].
        apply get_loc_nil in E. congruence. }
      intros H. right. split; [exact Hl |]. split; [exact Hr |].
      destruct (keys_refused _ _).
      * injection H as <-. now left.
      * destruct (merge_dups (columns left) (remove_at ri (columns right)))
          as [| d ds]; [discriminate |].
        injection H as <-. right. exists (d :: ds). split; [discriminate |].
        reflexivity.
Qed.

Lemma locate_Err (names cols : list string) (e : error) :
  locate names cols = Err e ->
  exists n, In n names /\ (e = KeyError [n] \/ e = ValueError n).
Proof.
  induction names as [| n ns IH]; simpl; [discriminate |].
  unfold bind, unique_loc.
  destruct (get_loc n cols) as [| i [| j l]].
  - intros H. injection H as <-. exists n. split; [now left | now left].
  - destruct (locate ns cols) as [js | e']; [discriminate |].
    intros H. injection H as <-.
    destruct (IH eq_refl) as [m [Hm He]]. exists m. split; [now right | exact He].
  - intros H. injection H as <-. exists n. split; [now left | now right].
Qed.

(** Lines 81-84 raise nothing: a summary fails only at the grouping. *)
Lemma summarise_Err (mm : DataFrame) (e : error) :
  summarise mm = Err e ->
  exists n, In n summary_labels /\ (e = KeyError [n] \/ e = ValueError n).
Proof.
  intros H.
  destruct (locate group_keys (columns mm)) as [kpos | e1] eqn:Hk.
  - destruct (locate (map fst summary_aggs) (columns mm)) as [apos | e2] eqn:Ha.
    + exfalso. apply locate_Ok in Hk, Ha.
      assert (Hloc : forall c, In c summary_labels ->
                     exists i, get_loc c (columns mm) = [i]).
      { intros c Hc. unfold summary_labels in Hc. apply in_app_or in Hc.
        destruct Hc as [Hc | Hc].
        - clear Ha H. induction Hk as [| n i ns js Hn Hrest IH];
            [contradiction | destruct Hc as [<- | Hc]; eauto].
        - clear Hk H. induction Ha as [| n i ns js Hn Hrest IH];
            [contradiction | destruct Hc as [<- | Hc]; eauto]. }
      rewrite (summarise_located mm Hloc) in H. discriminate H.
    + unfold summarise, groupby_agg in H. rewrite Hk, Ha in H.
      cbn [bind] in H. injection H as <-.
      destruct (locate_Err _ _ _ Ha) as [n [Hn He]].
      exists n. split; [| exact He]. apply in_or_app. now right.
  - unfold summarise, groupby_agg in H. rewrite Hk in H.
    cbn [bind] in H. injection H as <-.
    destruct (locate_Err _ _ _ Hk) as [n [Hn He]].
    exists n. split; [| exact He]. apply in_or_app. now left.
Qed.

(** X3.  The reconciler raises [KeyError] on the join key exactly when one
    of the two sheets has no [shipment_identifier] column.  Its other
    errors are those of the join, a [ValueError] on the join key (numbers
    against text) or a [MergeError], and a [KeyError] or [ValueError] on
    one of the five labels the grouping reads; the back-fill and the final
    selection never raise. *)
Theorem reconciler_errors_X3 (B C : DataFrame) :
  (shipment_summary B C = Err (KeyError ["shipment_identifier"]) <->
   has_column "shipment_identifier" (columns B) = false \/
   has_column "shipment_identifier" (columns C) = false) /\
  (forall e, shipment_summary B C = Err e ->
     e = KeyError ["shipment_identifier"] \/
     e = ValueError "shipment_identifier" \/
     (exists dups, dups <> [] /\ e = MergeError dups) \/
     (exists n, In n summary_labels /\
                (e = KeyError [n] \/ e = ValueError n))).
Proof.
  assert (Hcases : forall e, shipment_summary B C = Err e ->
    (e = KeyError ["shipment_identifier"] /\
     (has_column "shipment_identifier" (columns B) = false \/
      has_column "shipment_identifier" (columns C) = false)) \/
    e = ValueError "shipment_identifier" \/
    (exists dups, dups <> [] /\ e = MergeError dups) \/
    (exists n, In n summary_labels /\
               (e = KeyError [n] \/ e = ValueError n))).
  { intros e. unfold shipment_summary, merged_mapped, bind.
    destruct (merge B C "shipment_identifier") as [m | e'] eqn:Hm.
    - intros H. do 3 right. now apply summarise_Err in H.
    - intros H. injection H as <-. apply merge_Err in Hm.
      destruct Hm as [Hm | [_ [_ [Hv | Hd]]]]; tauto. }
  split; [split |].
  - intros H.
    destruct (Hcases _ H) as [[_ Hk] | [Hv | [[dups [_ Hd]] | [n [Hn He]]]]].
    + exact Hk.
    + discriminate Hv.
    + discriminate Hd.
    + exfalso. simpl in Hn.
      destruct He as [He | He]; [| discriminate He].
      injection He as <-. intuition discriminate.
  - intros H. unfold shipment_summary, merged_mapped, merge.
    destruct H as [H | H]; apply get_loc_nil in H; rewrite H;
      [reflexivity |].
    now destruct (get_loc "shipment_identifier" (columns B)).
  - intros e H. destruct (Hcases e H) as [[He _] | [Hv | [Hd | Hn]]]; tauto.
Qed.

Lemma reconciler_errors_X3_witness :
  shipment_summary ex_sheet0 ex_sheet2 =
  Err (KeyError ["shipment_identifier"]).
Proof.
  apply (proj2 (proj1 (reconciler_errors_X3 ex_sheet0 ex_sheet2))).
  left. reflexivity.
Defined.

Lemma append_x_not_on_time (c : string) : String.append c "_x" <> "on_time".
Proof.
  intros H.
  repeat (destruct c as [| ? c]; simpl in H;
          [discriminate H | injection H as _ H]).
  destruct c; discriminate H.
Qed.

Lemma append_y_not_on_time (c : string) : String.append c "_y" <> "on_time".
Proof.
  intros H.
  repeat (destruct c as [| ? c]; simpl in H;
          [discriminate H | injection H as _ H]).
  destruct c; discriminate H.
Qed.

Lemma remove_at_keeps (l : list string) :
  forall i c, In c l -> nth i l "" <> c -> In c (remove_at i l).
Proof.
  induction l as [| x xs IH]; intros i c Hin Hne; [contradiction |].
  destruct i as [| i]; simpl in *.
  - destruct Hin as [-> | Hin]; [contradiction | exact Hin].
  - destruct Hin as [-> | Hin]; [now left | right; now apply IH].
Qed.

(** A label that both sides of a join carry is not a label of the
    result. *)
Lemma merge_labels_on_time (lcols rcols : list string) :
  In "on_time" lcols -> In "on_time" rcols ->
  ~ In "on_time" (merge_labels lcols rcols).
Proof.
  intros Hl Hr Hin. apply has_column_In in Hl, Hr.
  unfold merge_labels in Hin. apply in_app_or in Hin.
  destruct Hin as [Hin | Hin]; apply in_map_iff in Hin as [c [Hc _]];
    unfold renamer in Hc;
    destruct (has_column c lcols && has_column c rcols) eqn:E.
  - now apply append_x_not_on_time in Hc.
  - subst c. rewrite Hl, Hr in E. discriminate E.
  - now apply append_y_not_on_time in Hc.
  - subst c. rewrite Hl, Hr in E. discriminate E.
Qed.

Lemma merge_labels_suffixed (lcols rcols : list string) :
  In "on_time" lcols -> In "on_time" rcols ->
  In "on_time_x" (merge_labels lcols rcols) /\
  In "on_time_y" (merge_labels lcols rcols).
Proof.
  intros Hl Hr. pose proof Hl as Hl'. pose proof Hr as Hr'.
  apply has_column_In in Hl', Hr'. unfold merge_labels. split.
  - apply in_or_app. left. apply in_map_iff. exists "on_time".
    split; [| exact Hl]. unfold renamer. now rewrite Hl', Hr'.
  - apply in_or_app. right. apply in_map_iff. exists "on_time".
    split; [| exact Hr]. unfold renamer. now rewrite Hl', Hr'.
Qed.

(** X4.  When sheet 1 has an [on_time] column as sheet 2 has, a join that
    succeeds has the columns [on_time_x] and [on_time_y] and none called
    [on_time], nor has the frame that is grouped; the reconciler then
    raises instead of returning a summary, and the error is the
    [KeyError] on [on_time] whenever the join and the other labels of the
    grouping are in order. *)
Theorem on_time_clash_X4 (B C : DataFrame) :
  has_column "on_time" (columns B) = true ->
  has_column "on_time" (columns C) = true ->
  (forall merged, merge B C "shipment_identifier" = Ok merged ->
     In "on_time_x" (columns merged) /\ In "on_time_y" (columns merged) /\
     ~ In "on_time" (columns merged)) /\
  (forall mm, merged_mapped B C = Ok mm -> ~ In "on_time" (columns mm)) /\
  (exists e, shipment_summary B C = Err e) /\
  (forall mm kpos q,
     merged_mapped B C = Ok mm ->
     locate group_keys (columns mm) = Ok kpos ->
     unique_loc "quantity" (columns mm) = Ok q ->
     shipment_summary B C = Err (KeyError ["on_time"])).
Proof.
  intros HB HC. apply has_column_In in HB, HC.
  assert (Hmerge : forall merged, merge B C "shipment_identifier" = Ok merged ->
     In "on_time_x" (columns merged) /\ In "on_time_y" (columns merged) /\
     ~ In "on_time" (columns merged)).
  { intros merged Hm. apply merge_Ok in Hm.
    destruct Hm as [li [lrest [ri [rrest [Gl [Gr ->]]]]]]. cbn [columns].
    assert (HC' : In "on_time" (remove_at ri (columns C))).
    { apply remove_at_keeps; [exact HC |].
      apply get_loc_head in Gr as [_ Hnth]. rewrite Hnth. discriminate. }
    destruct (merge_labels_suffixed _ _ HB HC') as [Hx Hy].
    repeat split; try assumption. now apply merge_labels_on_time. }
  assert (Hmm : forall mm, merged_mapped B C = Ok mm ->
                ~ In "on_time" (columns mm)).
  { intros mm H Hin. apply merged_mapped_Ok in H.
    destruct H as [merged [Hm ->]].
    destruct (Hmerge merged Hm) as [_ [_ Hno]].
    assert (Hren : ~ In "on_time" (columns (rename merged_mapping merged))).
    { unfold rename. cbn [columns]. intros Hr.
      apply in_map_iff in Hr as [x [Hx Hxin]].
      apply (merged_renamed_label x "on_time" "on_time") in Hx;
        [| simpl; tauto].
      assert (x = "on_time") by tauto. now subst x. }
    unfold setitem in Hin.
    destruct (has_column "quantity" (columns (rename merged_mapping merged)));
      cbn [columns] in Hin.
    - contradiction.
    - apply in_app_or in Hin as [Hin | [Hin | []]];
        [contradiction | discriminate Hin]. }
  split; [exact Hmerge |]. split; [exact Hmm |]. split.
  - destruct (shipment_summary B C) as [out | e] eqn:H; [exfalso | eauto].
    unfold shipment_summary, bind in H.
    destruct (merged_mapped B C) as [mm | e] eqn:E; [| discriminate H].
    destruct (summarise_Ok_located mm out H "on_time") as [i Hi];
      [simpl; tauto |].
    apply (Hmm mm eq_refl).
    destruct (get_loc_head "on_time" (columns mm) i [] Hi) as [Hlt Hnth].
    rewrite <- Hnth. now apply nth_In.
  - intros mm kpos q H Hk Hq. pose proof (Hmm mm H) as Hno.
    unfold shipment_summary. rewrite H. cbn [bind].
    unfold summarise, groupby_agg. rewrite Hk. cbn [bind].
    unfold summary_aggs. cbn [map fst locate]. rewrite Hq. cbn [bind].
    unfold unique_loc, get_loc. now rewrite (indices_from_absent _ _ 0 Hno).
Qed.

Lemma on_time_clash_X4_witness :
  (forall merged,
     merge sheet1_with_on_time ex_sheet2 "shipment_identifier" = Ok merged ->
     In "on_time_x" (columns merged) /\ In "on_time_y" (columns merged) /\
     ~ In "on_time" (columns merged)) /\
  (forall mm, merged_mapped sheet1_with_on_time ex_sheet2 = Ok mm ->
              ~ In "on_time" (columns mm)) /\
  (exists e, shipment_summary sheet1_with_on_time ex_sheet2 = Err e) /\
  (forall mm kpos q,
     merged_mapped sheet1_with_on_time ex_sheet2 = Ok mm ->
     locate group_keys (columns mm) = Ok kpos ->
     unique_loc "quantity" (columns mm) = Ok q ->
     shipment_summary sheet1_with_on_time ex_sheet2 =
       Err (KeyError ["on_time"])).
Proof.
  apply (on_time_clash_X4 sheet1_with_on_time ex_sheet2); reflexivity.
Defined.

Example on_time_clash_error :
  shipment_summary sheet1_with_on_time ex_sheet2 = Err (KeyError ["on_time"]).
Proof. reflexivity. Qed.

(** ** Rows of the summary, again *)

(** X5.  A summary row never has a missing origin, destination or
    product name, and has exactly six cells: joined rows with a missing key
    cell are left out of every group. *)
Theorem summary_keys_present_X5 (B C out : DataFrame) :
  shipment_summary B C = Ok out ->
  forall o, In o (rows out) ->
    length o = 6 /\
    notna (cell out o "origin") = true /\
    notna (cell out o "destination") = true /\
    notna (cell out o "product_name") = true.
Proof.
  intros H. apply shipment_summary_Ok in H. destruct H as [mm [_ ->]].
  cbn [rows]. intros o Ho. apply summary_rows_In in Ho.
  destruct Ho as [r [_ [Hc ->]]]. split; [reflexivity |].
  unfold complete_key, agg_key, group_keys in Hc. cbn [map forallb] in Hc.
  rewrite !andb_true_iff in Hc. destruct Hc as [H1 [H2 [H3 _]]].
  repeat split; assumption.
Qed.

Lemma summary_keys_present_X5_witness :
  length (nth 1 (rows summary_sample) []) = 6 /\
  notna (cell summary_sample (nth 1 (rows summary_sample) []) "origin")
    = true /\
  notna (cell summary_sample (nth 1 (rows summary_sample) []) "destination")
    = true /\
  notna (cell summary_sample (nth 1 (rows summary_sample) []) "product_name")
    = true.
Proof.
  apply (summary_keys_present_X5 sheet1_sample sheet2_sample summary_sample).
  - reflexivity.
  - simpl. tauto.
Defined.

(** ** Conservation of the joined rows *)

Lemma insert_key_length (k : list value) (ks : list (list value)) :
  length (insert_key k ks) <= S (length ks).
Proof.
  induction ks as [| k' ks IH]; simpl; [lia |].
  destruct (key_compare k k'); simpl; lia.
Qed.

Lemma sort_keys_length (ks : list (list value)) :
  length (sort_keys ks) <= length ks.
Proof.
  unfold sort_keys. induction ks as [| k ks IH]; simpl; [lia |].
  pose proof (insert_key_length k (fold_right insert_key [] ks)). lia.
Qed.

Lemma filter_length_le {A : Type} (p : A -> bool) (l : list A) :
  length (filter p l) <= length l.
Proof.
  induction l as [| x l IH]; simpl; [lia |].
  destruct (p x); simpl; lia.
Qed.

Lemma count_zero (x : list value) (ks : list (list value)) :
  ~ In x ks ->
  list_sum (map (fun k => if key_eqb x k then 1 else 0) ks) = 0.
Proof.
  unfold list_sum.
  induction ks as [| k ks IH]; intros Hn; [reflexivity |].
  cbn [map fold_right]. destruct (key_eqb x k) eqn:E.
  - apply key_eqb_eq in E. exfalso. apply Hn. now left.
  - rewrite IH; [reflexivity |]. intros H. apply Hn. now right.
Qed.

(** A key that occurs once among distinct keys is counted once. *)
Lemma count_one (x : list value) (ks : list (list value)) :
  NoDup ks -> In x ks ->
  list_sum (map (fun k => if key_eqb x k then 1 else 0) ks) = 1.
Proof.
  induction ks as [| k ks IH]; intros Hnd Hin; [contradiction |].
  inversion Hnd as [| ? ? Hk Hks]; subst.
  unfold list_sum in *. cbn [map fold_right].
  destruct (key_eqb x k) eqn:E.
  - apply key_eqb_eq in E. rewrite <- E in Hk.
    pose proof (count_zero x ks Hk) as H0. unfold list_sum in H0.
    now rewrite H0.
  - destruct Hin as [Heq | Hin].
    + symmetry in Heq. apply key_eqb_eq in Heq. congruence.
    + rewrite IH by assumption. reflexivity.
Qed.

Lemma list_sum_map_add {A : Type} (f g : A -> nat) (l : list A) :
  list_sum (map (fun k => f k + g k) l) =
  list_sum (map f l) + list_sum (map g l).
Proof.
  unfold list_sum. induction l as [| k l IH]; [reflexivity |].
  cbn [map fold_right]. rewrite IH. lia.
Qed.

(** The sizes of the groups add up to the number of grouped keys. *)
Lemma group_sizes_sum (ks keys : list (list value)) :
  NoDup ks -> (forall x, In x keys -> In x ks) ->
  list_sum (map (fun k => length (filter (fun x => key_eqb x k) keys)) ks) =
  length keys.
Proof.
  intros Hnd. induction keys as [| x keys IH]; intros Hin.
  - cbn [filter length]. clear Hnd Hin.
    induction ks as [| k ks IHk]; [reflexivity | exact IHk].
  - rewrite (map_ext _
      (fun k => (if key_eqb x k then 1 else 0) +
                length (filter (fun y => key_eqb y k) keys)))
      by (intros k; cbn [filter]; destruct (key_eqb x k); reflexivity).
    rewrite list_sum_map_add, IH by (intros y Hy; apply Hin; now right).
    rewrite count_one; [reflexivity | exact Hnd | apply Hin; now left].
Qed.

Lemma members_complete (mm : DataFrame) (r : Row) :
  complete_key (agg_key mm r) = true ->
  length (members mm (agg_key mm r)) =
  length (filter (fun x => key_eqb x (agg_key mm r))
                 (map (agg_key mm) (complete_rows mm))).
Proof.
  intros Hc. rewrite filter_map_swap, length_map. unfold members, complete_rows.
  rewrite filter_filter_implied; [reflexivity |].
  intros x _ Hx. apply key_eqb_eq in Hx. now rewrite Hx.
Qed.

(** X6.  The quantities of a summary add up to the number of joined rows
    that have no missing key cell: every such row is counted in exactly one
    summary row.  There are at most as many summary rows as such joined
    rows. *)
Theorem quantity_conservation_X6 (B C out : DataFrame) :
  rectangular B = true -> rectangular C = true ->
  shipment_summary B C = Ok out ->
  exists mm,
    merged_mapped B C = Ok mm /\
    quantity_total out = Z.of_nat (length (complete_rows mm)) /\
    length (rows out) <= length (complete_rows mm) /\
    length (complete_rows mm) <= length (rows mm).
Proof.
  intros HB HC H. apply rectangular_Rect in HB, HC.
  apply shipment_summary_Ok in H. destruct H as [mm [Hmm ->]].
  pose proof (merged_mapped_unit B C mm HB HC Hmm) as Hunit.
  exists mm. split; [exact Hmm |].
  fold (complete_rows mm).
  set (keys := map (agg_key mm) (complete_rows mm)).
  assert (Hks : forall k, In k (sort_keys keys) ->
                exists r, complete_key (agg_key mm r) = true /\ k = agg_key mm r).
  { intros k Hk. apply sort_keys_In, in_map_iff in Hk.
    destruct Hk as [r [<- Hr]]. apply filter_In in Hr. exists r. tauto. }
  split; [| split].
  - unfold quantity_total. cbn [rows]. rewrite map_map.
    rewrite (map_ext_in _
               (fun k => Z.of_nat (length (filter (fun x => key_eqb x k) keys)))).
    + assert (Hlen : length (complete_rows mm) = length keys)
        by (unfold keys; now rewrite length_map).
      rewrite Hlen, <- (group_sizes_sum (sort_keys keys) keys).
      * generalize (sort_keys keys). intros l. unfold list_sum.
        induction l as [| k l IH]; [reflexivity |].
        cbn [map fold_right]. rewrite IH. lia.
      * apply sorted_NoDup, sort_keys_sorted.
      * intros x Hx. now apply sort_keys_In.
    + intros k Hk. destruct (Hks k Hk) as [r [Hc ->]].
      rewrite summary_row_quantity, (summary_quantity mm _ Hunit).
      cbn [as_int]. f_equal. now apply members_complete.
  - cbn [rows]. rewrite length_map.
    pose proof (sort_keys_length keys) as Hle. unfold keys in Hle.
    now rewrite length_map in Hle.
  - apply filter_length_le.
Qed.

Lemma quantity_conservation_X6_witness :
  exists mm,
    merged_mapped sheet1_sample sheet2_sample = Ok mm /\
    quantity_total summary_sample = Z.of_nat (length (complete_rows mm)) /\
    length (rows summary_sample) <= length (complete_rows mm) /\
    length (complete_rows mm) <= length (rows mm).
Proof.
  apply (quantity_conservation_X6 sheet1_sample sheet2_sample); reflexivity.
Defined.

(** ** The join when sheet 2 has one row per identifier *)





(** ** The order of the input rows *)

Lemma remove_row_perm (r : Row) (l : list Row) :
  forall l', remove_row r l = Some l' -> Permutation l (r :: l').
Proof.
  induction l as [| x xs IH]; simpl; intros l' H; [discriminate |].
  destruct (key_eqb r x) eqn:E.
  - apply key_eqb_eq in E. injection H as <-. now subst.
  - destruct (remove_row r xs) as [xs' |]; [| discriminate].
    injection H as <-. rewrite (IH xs' eq_refl). apply perm_swap.
Qed.

Lemma same_rows_perm (l : list Row) :
  forall l', same_rows l l' = true -> Permutation l l'.
Proof.
  induction l as [| r rs IH]; simpl; intros l' H.
  - destruct l'; [constructor | discriminate].
  - destruct (remove_row r l') as [l'' |] eqn:E; [| discriminate].
    apply remove_row_perm in E. rewrite E. constructor. now apply IH.
Qed.

Lemma Permutation_filter {A : Type} (p : A -> bool) (l l' : list A) :
  Permutation l l' -> Permutation (filter p l) (filter p l').
Proof.
  induction 1 as [| x l l' _ IH | x y l | l l' l'' _ IH1 _ IH2]; simpl.
  - constructor.
  - destruct (p x); [now constructor | exact IH].
  - destruct (p x), (p y); try apply perm_swap; apply Permutation_refl.
  - now transitivity (filter p l').
Qed.

Lemma flat_map_pointwise_perm {A B : Type} (f g : A -> list B) (l : list A) :
  (forall x, Permutation (f x) (g x)) ->
  Permutation (flat_map f l) (flat_map g l).
Proof.
  intros H. induction l as [| x l IH]; simpl; [constructor |].
  now apply Permutation_app.
Qed.

Lemma join_rows_perm (li ri : nat) (ls ls' rs rs' : list Row) :
  Permutation ls ls' -> Permutation rs rs' ->
  Permutation (join_rows li ri ls rs) (join_rows li ri ls' rs').
Proof.
  intros Hl Hr. unfold join_rows.
  transitivity (flat_map (fun l => map (fun r => l ++ remove_at ri r)
                                       (matches li ri l rs')) ls).
  - apply flat_map_pointwise_perm. intros l. apply Permutation_map.
    unfold matches. now apply Permutation_filter.
  - now apply Permutation_flat_map.
Qed.

Lemma agg_sum_perm (l l' : list value) :
  Permutation l l' -> agg_sum l = agg_sum l'.
Proof.
  unfold agg_sum. intros H. f_equal.
  induction H as [| x l l' _ IH | x y l | l l' l'' _ IH1 _ IH2]; simpl;
    lia.
Qed.

(** Two strictly ascending lists with the same elements are equal. *)
Lemma sorted_same_elements (l1 : list (list value)) :
  forall l2,
  StronglySorted key_lt l1 -> StronglySorted key_lt l2 ->
  (forall x, In x l1 <-> In x l2) -> l1 = l2.
Proof.
  induction l1 as [| a l1 IH]; intros [| b l2] H1 H2 Hin.
  - reflexivity.
  - exfalso. apply (Hin b). now left.
  - exfalso. apply (Hin a). now left.
  - inversion H1 as [| ? ? S1 A1]; inversion H2 as [| ? ? S2 A2]; subst.
    rewrite Forall_forall in A1, A2.
    assert (Hab : a = b).
    { destruct (proj1 (Hin a) (or_introl eq_refl)) as [Hb | Hb];
        [now symmetry |].
      destruct (proj2 (Hin b) (or_introl eq_refl)) as [Ha | Ha];
        [exact Ha |].
      exfalso. apply (key_lt_irrefl a).
      exact (key_compare_trans a b a (A1 b Ha) (A2 a Hb)). }
    subst b. f_equal. apply IH; try assumption.
    intros x. split; intros Hx.
    + destruct (proj1 (Hin x) (or_intror Hx)) as [<- | Hx']; [| exact Hx'].
      exfalso. exact (key_lt_irrefl a (A1 a Hx)).
    + destruct (proj2 (Hin x) (or_intror Hx)) as [<- | Hx']; [| exact Hx'].
      exfalso. exact (key_lt_irrefl a (A2 a Hx)).
Qed.

Lemma sort_keys_perm (l l' : list (list value)) :
  Permutation l l' -> sort_keys l = sort_keys l'.
Proof.
  intros H. apply sorted_same_elements; try apply sort_keys_sorted.
  intros x. rewrite !sort_keys_In. split; apply Permutation_in;
    [exact H | now symmetry].
Qed.

Lemma cell_same_columns (df df' : DataFrame) (r : Row) (c : string) :
  columns df' = columns df -> cell df' r c = cell df r c.
Proof. unfold cell. now intros ->. Qed.

(** [df[c] = v] acts on the labels, and on each row by itself. *)
Lemma setitem_rowwise (c : string) (v : value) (cols : list string) :
  exists cols' g, forall rs,
    setitem c v (mkDF cols rs) = mkDF cols' (map g rs).
Proof.
  unfold setitem. cbn [columns rows].
  destruct (has_column c cols); eexists; eexists; intros rs; reflexivity.
Qed.

Lemma forallb_perm {A : Type} (p : A -> bool) (l l' : list A) :
  Permutation l l' -> forallb p l = forallb p l'.
Proof.
  induction 1 as [| x l l' _ IH | x y l | l l' l'' _ IH1 _ IH2]; simpl.
  - reflexivity.
  - now rewrite IH.
  - now destruct (p x), (p y).
  - congruence.
Qed.

Lemma existsb_perm {A : Type} (p : A -> bool) (l l' : list A) :
  Permutation l l' -> existsb p l = existsb p l'.
Proof.
  induction 1 as [| x l l' _ IH | x y l | l l' l'' _ IH1 _ IH2]; simpl.
  - reflexivity.
  - now rewrite IH.
  - now destruct (p x), (p y).
  - congruence.
Qed.

(** The check of the key columns does not look at the order of the cells. *)
Lemma keys_refused_perm (lk lk' rk rk' : list value) :
  Permutation lk lk' -> Permutation rk rk' ->
  keys_refused lk rk = keys_refused lk' rk'.
Proof.
  intros Hl Hr.
  assert (Ht : forall l l' : list value,
            Permutation l l' -> text_column l = text_column l').
  { intros l l' H. unfold text_column, numeric_column.
    now rewrite (forallb_perm numeric_cell l l' H),
      (forallb_perm is_bool l l' H), (existsb_perm is_int l l' H). }
  assert (Hn : forall l l' : list value,
            Permutation l l' -> numeric_column l = numeric_column l')
    by (intros l l' H; apply forallb_perm; exact H).
  destruct lk as [| a lk].
  - apply Permutation_nil in Hl. now subst.
  - destruct lk' as [| a' lk'];
      [symmetry in Hl; apply Permutation_nil in Hl; discriminate |].
    destruct rk as [| b rk].
    + apply Permutation_nil in Hr. now subst.
    + destruct rk' as [| b' rk'];
        [symmetry in Hr; apply Permutation_nil in Hr; discriminate |].
      unfold keys_refused.
      now rewrite (Ht _ _ Hl), (Ht _ _ Hr), (Hn _ _ Hl), (Hn _ _ Hr).
Qed.

(** X8.  The keys and the quantities of the summary do not depend on the
    order of the rows of the two sheets: with the same rows in another
    order the reconciler succeeds again and returns the same keys with the
    same quantities, in the same order.  (Only the on_time cells, taken
    from the first row of a group, can change.) *)
Theorem summary_order_independent_X8 (B C B' C' out : DataFrame) :
  columns B' = columns B -> columns C' = columns C ->
  same_rows (rows B) (rows B') = true ->
  same_rows (rows C) (rows C') = true ->
  shipment_summary B C = Ok out ->
  exists out',
    shipment_summary B' C' = Ok out' /\
    map (key_quantity out') (rows out') = map (key_quantity out) (rows out).
Proof.
  intros HcB HcC HB HC H. apply same_rows_perm in HB, HC.
  unfold shipment_summary, merged_mapped, merge in H |- *.
  rewrite HcB, HcC.
  destruct (get_loc "shipment_identifier" (columns B)) as [| li lrest];
    [discriminate |].
  destruct (get_loc "shipment_identifier" (columns C)) as [| ri rrest];
    [discriminate |].
  rewrite <- (keys_refused_perm _ _ _ _
                (Permutation_map (cell_at li) HB)
                (Permutation_map (cell_at ri) HC)).
  destruct (keys_refused _ _); [discriminate |].
  destruct (merge_dups (columns B) (remove_at ri (columns C)));
    [| discriminate].
  cbn [bind] in *. unfold rename in *. cbn [columns rows] in *.
  destruct (setitem_rowwise "quantity" (VInt 1)
              (map (rename_label merged_mapping)
                   (merge_labels (columns B) (remove_at ri (columns C)))))
    as [cols' [g Hset]].
  rewrite Hset in H |- *.
  pose proof (join_rows_perm li ri _ _ _ _ HB HC) as HJ.
  set (J := join_rows li ri (rows B) (rows C)) in *.
  set (J' := join_rows li ri (rows B') (rows C')) in *.
  set (mm := mkDF cols' (map g J)) in *.
  set (mm' := mkDF cols' (map g J')).
  pose proof (summarise_Ok_located mm out H) as Hloc.
  apply summarise_Ok in H. subst out.
  eexists. split; [apply (summarise_located mm'); exact Hloc |].
  cbn [rows]. rewrite !map_map.
  assert (Hrows : Permutation (rows mm') (rows mm))
    by (symmetry; apply Permutation_map; exact HJ).
  assert (Hks : sort_keys (map (agg_key mm')
                  (filter (fun r => complete_key (agg_key mm' r)) (rows mm'))) =
                sort_keys (map (agg_key mm)
                  (filter (fun r => complete_key (agg_key mm r)) (rows mm)))).
  { apply sort_keys_perm.
    apply (Permutation_map (agg_key mm)).
    apply (Permutation_filter (fun r => complete_key (agg_key mm r))).
    exact Hrows. }
  rewrite Hks. apply map_ext_in. intros k Hk.
  apply sort_keys_In, in_map_iff in Hk. destruct Hk as [r [<- _]].
  unfold key_quantity.
  change (summary_row mm' (agg_key mm r))
    with (summary_row mm' (agg_key mm' r)).
  rewrite !summary_row_key, !summary_row_quantity.
  f_equal. f_equal. apply agg_sum_perm.
  apply (Permutation_map (fun x => cell mm x "quantity")).
  unfold members.
  apply (Permutation_filter (fun x => key_eqb (agg_key mm x) (agg_key mm r))).
  exact Hrows.
Qed.

Lemma summary_order_independent_X8_witness :
  exists out',
    shipment_summary sheet1_shuffled sheet2_shuffled = Ok out' /\
    map (key_quantity out') (rows out') =
    map (key_quantity summary_sample) (rows summary_sample).
Proof.
  apply (summary_order_independent_X8 sheet1_sample sheet2_sample
           sheet1_shuffled sheet2_shuffled summary_sample); reflexivity.
Defined.

(** With the sample rows in another order the on_time of one group
    changes, the keys and quantities do not. *)
Example shuffled_summary :
  shipment_summary sheet1_shuffled sheet2_shuffled =
  Ok (mkDF shipment_columns
     [[VStr "W1"; VStr "S1"; VStr "Gadget"; VInt 1; VNaN; VStr "unknown"];
      [VStr "W1"; VStr "S2"; VStr "Bolt"; VInt 2; VBool false; VStr "unknown"];
      [VStr "W2"; VStr "S1"; VStr "Widget"; VInt 3; VBool false;
       VStr "unknown"]]).
Proof. reflexivity. Qed.

(** ** Runs of [main] *)

Lemma sheet0_clean_length (A out : DataFrame) :
  sheet0_clean A = Ok out -> length (rows out) = length (rows A).
Proof.
  unfold sheet0_clean. intros H. apply getitem_Ok in H.
  destruct H as [_ ->]. cbn [rows]. apply length_map.
Qed.

(** X9.  A run of [main] that raises does not undo what it has appended.
    When the direct mapper raises, nothing was appended and the database
    is as before.  When the reconciler raises, the mapper's rows are
    already in the [shipments] table, after the rows it held, and the run
    has issued that one [to_sql] call. *)
Theorem main_failure_X9 (A B C : DataFrame) (db db' : Database) (e : error) :
  main A B C db = (db', Err e) ->
  (sheet0_clean A = Err e /\ db' = db) \/
  (exists m,
     sheet0_clean A = Ok m /\ shipment_summary B C = Err e /\
     tables db' "shipments" = tables db "shipments" ++ rows m /\
     journal db' = journal db ++ [("shipments", rows m)]).
Proof.
  unfold main. destruct (sheet0_clean A) as [m | e1].
  - destruct (shipment_summary B C) as [r | e2]; [discriminate |].
    intros H. injection H as <- <-. right. exists m.
    unfold to_sql. cbn [tables journal]. rewrite String.eqb_refl. tauto.
  - intros H. injection H as <- <-. now left.
Qed.

Lemma main_failure_X9_witness :
  (sheet0_clean ex_sheet0 = Err (KeyError ["shipment_identifier"]) /\
   fst (main ex_sheet0 ex_sheet0 ex_sheet2 empty_db) = empty_db) \/
  (exists m,
     sheet0_clean ex_sheet0 = Ok m /\
     shipment_summary ex_sheet0 ex_sheet2 =
       Err (KeyError ["shipment_identifier"]) /\
     tables (fst (main ex_sheet0 ex_sheet0 ex_sheet2 empty_db)) "shipments" =
       tables empty_db "shipments" ++ rows m /\
     journal (fst (main ex_sheet0 ex_sheet0 ex_sheet2 empty_db)) =
       journal empty_db ++ [("shipments", rows m)]).
Proof.
  apply (main_failure_X9 ex_sheet0 ex_sheet0 ex_sheet2 empty_db).
  reflexivity.
Defined.

(** X10.  Whatever its outcome, a run of [main] only appends to the
    [shipments] table: every other table is as before, the rows the table
    held are still there, in place, before the new ones, and the run has
    issued at most two [to_sql] calls, each of them on [shipments]. *)
Theorem main_append_only_X10 (A B C : DataFrame) (db : Database) :
  let db' := fst (main A B C db) in
  (forall n, n <> "shipments" -> tables db' n = tables db n) /\
  (exists added, tables db' "shipments" = tables db "shipments" ++ added) /\
  (exists calls,
     journal db' = journal db ++ calls /\ length calls <= 2 /\
     forall c, In c calls -> fst c = "shipments").
Proof.
  cbv zeta. unfold main.
  destruct (sheet0_clean A) as [m | e1];
    [destruct (shipment_summary B C) as [r | e2] |];
    unfold to_sql; cbn [fst tables journal]; rewrite ?String.eqb_refl.
  - split; [| split].
    + intros n Hn. apply String.eqb_neq in Hn. now rewrite Hn.
    + exists (rows m ++ rows r). now rewrite app_assoc.
    + exists [("shipments", rows m); ("shipments", rows r)].
      split; [now rewrite <- app_assoc |]. split; [simpl; lia |].
      intros c [<- | [<- | []]]; reflexivity.
  - split; [| split].
    + intros n Hn. apply String.eqb_neq in Hn. now rewrite Hn.
    + now exists (rows m).
    + exists [("shipments", rows m)]. split; [reflexivity |].
      split; [simpl; lia |]. intros c [<- | []]; reflexivity.
  - split; [| split].
    + reflexivity.
    + exists []. now rewrite app_nil_r.
    + exists []. split; [now rewrite app_nil_r |]. split; [simpl; lia |].
      intros c [].
Qed.

(** X11.  The script is not idempotent.  When a run that raised nothing
    is followed by a second run on the database it left, and that run
    raises nothing either, the [shipments] table holds the rows it held
    at first followed by the mapper's and the reconciler's rows, twice
    over, and four [to_sql] calls have been issued. *)
Theorem main_rerun_duplicates_X11 (A B C : DataFrame) (db db1 db2 : Database) :
  main A B C db = (db1, Ok tt) ->
  main A B C db1 = (db2, Ok tt) ->
  exists m r,
    sheet0_clean A = Ok m /\ shipment_summary B C = Ok r /\
    tables db2 "shipments" =
      tables db "shipments" ++ (rows m ++ rows r) ++ (rows m ++ rows r) /\
    journal db2 =
      journal db ++ [("shipments", rows m); ("shipments", rows r);
                     ("shipments", rows m); ("shipments", rows r)].
Proof.
  unfold main. destruct (sheet0_clean A) as [m | e1]; [| discriminate].
  destruct (shipment_summary B C) as [r | e2]; [| discriminate].
  intros H1 H2. injection H1 as <-. injection H2 as <-. exists m, r.
  split; [reflexivity |]. split; [reflexivity |].
  unfold to_sql. cbn [tables journal]. rewrite String.eqb_refl.
  split; now rewrite <- !app_assoc.
Qed.

Lemma main_rerun_duplicates_X11_witness :
  exists m r,
    sheet0_clean ex_sheet0 = Ok m /\
    shipment_summary sheet1_sample sheet2_sample = Ok r /\
    tables (fst (main ex_sheet0 sheet1_sample sheet2_sample
                   (fst (main ex_sheet0 sheet1_sample sheet2_sample
                           empty_db)))) "shipments" =
      tables empty_db "shipments" ++
      (rows m ++ rows r) ++ (rows m ++ rows r) /\
    journal (fst (main ex_sheet0 sheet1_sample sheet2_sample
                    (fst (main ex_sheet0 sheet1_sample sheet2_sample
                            empty_db)))) =
      journal empty_db ++ [("shipments", rows m); ("shipments", rows r);
                           ("shipments", rows m); ("shipments", rows r)].
Proof.
  apply (main_rerun_duplicates_X11 ex_sheet0 sheet1_sample sheet2_sample
           empty_db
           (fst (main ex_sheet0 sheet1_sample sheet2_sample empty_db)));
    reflexivity.
Defined.

(** X12.  On a run that raises nothing, the total the script reports is
    the number of rows of sheet 0 plus the number of summary rows, and the
    [shipments] table has grown by exactly that many rows. *)
Theorem total_records_X12 (A B C : DataFrame) (db db' : Database) :
  main A B C db = (db', Ok tt) ->
  exists r,
    shipment_summary B C = Ok r /\
    total_records A B C = Ok (length (rows A) + length (rows r)) /\
    length (tables db' "shipments") =
    length (tables db "shipments") + (length (rows A) + length (rows r)).
Proof.
  unfold main, total_records.
  destruct (sheet0_clean A) as [m | e1] eqn:Hm; [| discriminate].
  destruct (shipment_summary B C) as [r | e2]; [| discriminate].
  intros H. injection H as <-. exists r. split; [reflexivity |].
  apply sheet0_clean_length in Hm. cbn [bind]. rewrite Hm.
  split; [reflexivity |].
  unfold to_sql. cbn [tables]. rewrite String.eqb_refl.
  rewrite !length_app. lia.
Qed.

Lemma total_records_X12_witness :
  exists r,
    shipment_summary sheet1_sample sheet2_sample = Ok r /\
    total_records sheet0_with_notes sheet1_sample sheet2_sample =
      Ok (length (rows sheet0_with_notes) + length (rows r)) /\
    length (tables (fst (main sheet0_with_notes sheet1_sample sheet2_sample
                           empty_db)) "shipments") =
    length (tables empty_db "shipments") +
    (length (rows sheet0_with_notes) + length (rows r)).
Proof.
  apply (total_records_X12 sheet0_with_notes sheet1_sample sheet2_sample
           empty_db).
  reflexivity.
Defined.
